(** * Outline client: server repository and server adapter

    A shallow embedding of
    - [persistent_server.ts] ([PersistentServerRepository], [configsMatch],
      [isServerCipherSupported]),
    - [outline_server.ts] ([OutlineServer]),
    - [fake_tunnel.ts] and [electron_outline_tunnel.ts] (the two tunnel
      implementations),
    followed by the properties of the repository and of the adapter.

    Conventions of the embedding.
    - A method that mutates [this] is a function from the state before to an
      outcome and the state after; [Throw e] is a JavaScript exception.
    - An [async] method is run to completion: the only suspension points are
      the awaited tunnel operations, which are state transformers here.
    - [console.*] calls have no effect on the state and are left out.
    - A JavaScript [Map] is an association list in insertion order; a plain
      object is its list of own enumerable properties in enumeration order.
      Property names that shadow members of [Object.prototype] are outside the
      model.
    - ECMAScript numbers are integers ([Z]); the only numbers in the program
      are ports and native error codes. *)

From Stdlib Require Import Ascii.
From stdpp Require Import gmap strings list pretty.

Set Warnings "-register-all".

(** ** Outcomes *)

Inductive result (E A : Type) : Type :=
| Ok (a : A)
| Throw (e : E).
Arguments Ok {E A} a.
Arguments Throw {E A} e.

(** ** JavaScript values that JSON can carry *)

Inductive json : Type :=
| JNull
| JBool (b : bool)
| JNum (n : Z)
| JStr (s : string)
| JArr (items : list json)
| JObj (props : list (string * json)).

(** A JavaScript [Map<string, V>]: entries in insertion order, keys unique. *)
Module JsMap.
Section JsMap.
Context {V : Type}.

Fixpoint get (k : string) (m : list (string * V)) : option V :=
  match m with
  | [] => None
  | (k', v) :: m' => if decide (k' = k) then Some v else get k m'
  end.

(** [set] keeps the position of a key that is already present and appends
    a new key. *)
Fixpoint set (k : string) (v : V) (m : list (string * V)) : list (string * V) :=
  match m with
  | [] => [(k, v)]
  | (k', v') :: m' =>
      if decide (k' = k) then (k, v) :: m' else (k', v') :: set k v m'
  end.

Definition delete (k : string) (m : list (string * V)) : list (string * V) :=
  filter (λ e, e.1 ≠ k) m.

Definition values (m : list (string * V)) : list V := m.*2.

Definition keys (m : list (string * V)) : list string := m.*1.
End JsMap.
End JsMap.

(** A plain JavaScript object: own enumerable string-keyed properties in
    enumeration order, which is array indices in ascending order first, then
    the other names in creation order. *)
Module JsObject.
Definition is_digit (c : Ascii.ascii) : bool :=
  (48 <=? Ascii.nat_of_ascii c)%nat && (Ascii.nat_of_ascii c <=? 57)%nat.

Fixpoint digits_value (acc : N) (s : string) : option N :=
  match s with
  | EmptyString => Some acc
  | String c s' =>
      if is_digit c
      then digits_value (acc * 10 + (N.of_nat (Ascii.nat_of_ascii c) - 48))%N s'
      else None
  end.

(** The canonical numeric strings below 2^32 - 1. *)
Definition array_index (k : string) : option N :=
  match k with
  | EmptyString => None
  | String c rest =>
      if (Ascii.nat_of_ascii c =? 48)%nat && negb (bool_decide (rest = ""))
      then None
      else match digits_value 0 k with
           | Some n => if (n <? 4294967295)%N then Some n else None
           | None => None
           end
  end.

Section JsObject.
Context {V : Type}.

Definition get (k : string) (o : list (string * V)) : option V :=
  JsMap.get k o.

(** Position of a property that is being created. *)
Fixpoint create (k : string) (v : V) (o : list (string * V)) : list (string * V) :=
  match o with
  | [] => [(k, v)]
  | (k', v') :: o' =>
      match array_index k, array_index k' with
      | Some n, Some n' =>
          if (n <? n')%N then (k, v) :: o else (k', v') :: create k v o'
      | Some _, None => (k, v) :: o
      | None, _ => (k', v') :: create k v o'
      end
  end.

(** [o[k] = v] *)
Definition set (k : string) (v : V) (o : list (string * V)) : list (string * V) :=
  match JsMap.get k o with
  | Some _ => JsMap.set k v o
  | None => create k v o
  end.
End JsObject.
End JsObject.

(** [for (const k in v) if (v.hasOwnProperty(k)) ... v[k] ...] over a value
    that [JSON.parse] returned: the keys that are visited, with their values. *)
Definition indexed (l : list json) : list (string * json) :=
  imap (λ i v, (pretty i, v)) l.

Fixpoint characters (s : string) : list json :=
  match s with
  | EmptyString => []
  | String c s' => JStr (String c EmptyString) :: characters s'
  end.

Definition for_in (v : json) : list (string * json) :=
  match v with
  | JObj props => props
  | JArr items => indexed items
  | JStr s => indexed (characters s)
  | JNull | JBool _ | JNum _ => []
  end.

(** [v.name] for a value [v] that [JSON.parse] returned: reading a property
    of [null] is a [TypeError] ([None]); a value without the property gives
    [undefined] ([Some None]). *)
Definition get_name (v : json) : option (option json) :=
  match v with
  | JNull => None
  | JObj props => Some (JsObject.get "name" props)
  | JBool _ | JNum _ | JStr _ | JArr _ => Some None
  end.

(** [a || b] for an optional string [a]: [undefined] and the empty string
    are falsy. *)
Definition or_else (a : option string) (b : string) : string :=
  match a with
  | Some s => if decide (s = "") then b else s
  | None => b
  end.

(** [if (v)] for an optional string [v] *)
Definition truthy (v : option string) : bool :=
  match v with
  | Some s => negb (bool_decide (s = ""))
  | None => false
  end.

(** ** Configuration ([model/server.ts]) *)

Module ProxyConfigSource.
(** Modelled from the spec: [model/server.ts] is not part of the sources;
    a source holds the URL from which proxy configurations are fetched. *)
Record t : Type := { url : string }.
#[global] Instance eq_dec : EqDecision t.
Proof. solve_decision. Defined.
End ProxyConfigSource.

Module ShadowsocksConfig.
(** Modelled from the spec: [model/server.ts] is not part of the sources;
    a proxy is a concrete [{host, port, password, method, name?}] tuple.
    The [method] may be absent: [OutlineServer.isServerCipherSupported]
    takes [cipher?: string] and [add] falls back to ['unknown']. *)
Record t : Type := {
  host : string;
  port : Z;
  password : string;
  method : option string;
  name : option string;
}.
#[global] Instance eq_dec : EqDecision t.
Proof. solve_decision. Defined.
End ShadowsocksConfig.

Module ServerConfig.
(** Modelled from the spec: [model/server.ts] is not part of the sources;
    [{ name?: string, proxy?: ShadowsocksConfig, source?: ProxyConfigSource }]. *)
Record t : Type := {
  name : option string;
  proxy : option ShadowsocksConfig.t;
  source : option ProxyConfigSource.t;
}.
#[global] Instance eq_dec : EqDecision t.
Proof. solve_decision. Defined.

Definition set_name (v : option string) (c : t) : t :=
  {| name := v; proxy := proxy c; source := source c |}.
Definition set_proxy (v : option ShadowsocksConfig.t) (c : t) : t :=
  {| name := name c; proxy := v; source := source c |}.
Definition set_source (v : option ProxyConfigSource.t) (c : t) : t :=
  {| name := name c; proxy := proxy c; source := v |}.
End ServerConfig.

Import ProxyConfigSource ShadowsocksConfig ServerConfig.

(** What [JSON.stringify] sees of a configuration: absent properties are
    left out. The order of the properties inside one configuration object is
    fixed here; in the program it is the order in which they were created. *)
Definition optional (k : string) (v : option json) : list (string * json) :=
  match v with
  | Some j => [(k, j)]
  | None => []
  end.

Definition json_of_source (s : ProxyConfigSource.t) : json :=
  JObj [("url", JStr (url s))].

Definition json_of_proxy (p : ShadowsocksConfig.t) : json :=
  JObj ([("host", JStr (host p)); ("port", JNum (port p));
         ("password", JStr (password p))]
        ++ optional "method" (JStr <$> method p)
        ++ optional "name" (JStr <$> ShadowsocksConfig.name p)).

Definition json_of_config (c : ServerConfig.t) : json :=
  JObj (optional "proxy" (json_of_proxy <$> proxy c)
        ++ optional "name" (JStr <$> name c)
        ++ optional "source" (json_of_source <$> source c)).

(** ** Tunnel and server objects *)

Module Tunnel.
(** The fields that both tunnel implementations hold. *)
Record t : Type := {
  config : ServerConfig.t;
  id : string;
  running : bool;
}.
#[global] Instance eq_dec : EqDecision t.
Proof. solve_decision. Defined.

Definition set_config (c : ServerConfig.t) (tn : t) : t :=
  {| config := c; id := id tn; running := running tn |}.
Definition set_running (b : bool) (tn : t) : t :=
  {| config := config tn; id := id tn; running := b |}.
(** [tunnel.config.proxy = v], and [delete tunnel.config.proxy] for [None] *)
Definition set_proxy (v : option ShadowsocksConfig.t) (tn : t) : t :=
  set_config (ServerConfig.set_proxy v (config tn)) tn.
End Tunnel.

Module Server.
(** An [OutlineServer] object: its [id], the tunnel it wraps, and the
    [errorMessageId] annotation of the [Server] interface. *)
Record t : Type := {
  id : string;
  tunnel : Tunnel.t;
  errorMessageId : option string;
}.
#[global] Instance eq_dec : EqDecision t.
Proof. solve_decision. Defined.

Definition set_tunnel (tn : Tunnel.t) (s : t) : t :=
  {| id := id s; tunnel := tn; errorMessageId := errorMessageId s |}.
Definition set_errorMessageId (v : option string) (s : t) : t :=
  {| id := id s; tunnel := tunnel s; errorMessageId := v |}.
End Server.

(** ** Events ([model/events.ts]) *)

(** Modelled from the spec: [model/events.ts] is not part of the sources; an
    event is a tagged variant carrying the affected server, and the queue
    delivers in enqueue order. An event records the server as it is when the
    event is enqueued. *)
Inductive OutlineEvent : Type :=
| ServerAdded (server : Server.t)
| ServerRenamed (server : Server.t)
| ServerForgotten (server : Server.t)
| ServerForgetUndone (server : Server.t)
| ServerConnected (server : Server.t)
| ServerDisconnected (server : Server.t)
| ServerReconnecting (server : Server.t)
| ServerConfigSourceUrlChanged (server : Server.t) (url : string).

Definition enqueue (e : OutlineEvent) (queue : list OutlineEvent) : list OutlineEvent :=
  queue ++ [e].

(** ** Errors ([model/errors.ts]) *)

(** Modelled from the spec: [model/errors.ts] is not part of the sources.
    The constructors are the error classes that the sources throw, a
    [TypeError] of the runtime, a plain [Error] with its message, and
    [NativeError] for a value thrown by native code, which may or may not
    carry an [errorCode]. *)
Inductive Error : Type :=
| ServerAlreadyAdded (server : Server.t)
| ShadowsocksUnsupportedCipher (cipher : string)
| IllegalServerConfiguration
| InvalidServerCredentials
| OutlinePluginError (code : Z)
| RegularNativeError
| TypeError
| JsError (message : string)
| NativeError (code : option Z).

(** [e.errorCode] *)
Definition errorCode (e : Error) : option Z :=
  match e with
  | OutlinePluginError c => Some c
  | NativeError c => c
  | _ => None
  end.

(** Modelled from the spec: the code-to-error table [errors.fromErrorCode]
    and the values of the [ErrorCode] enumeration are external to the
    sources. *)
Class ErrorTable : Type := {
  fromErrorCode : Z → Error;
  SERVER_UNREACHABLE : Z;
  SHADOWSOCKS_START_FAILURE : Z;
}.

(** The tunnel interface of [outlinePlugin.d.ts], as far as [OutlineServer]
    calls it. [fetchProxyConfig] resolves to an array of candidates, or to
    [undefined] ([None]) when the implementation returns nothing. *)
Class TunnelClass : Type := {
  fetchProxyConfig :
    Tunnel.t → result Error (option (list ShadowsocksConfig.t)) * Tunnel.t;
  start : Tunnel.t → result Error unit * Tunnel.t;
  stop : Tunnel.t → result Error unit * Tunnel.t;
}.

(** ** [outline_server.ts] *)

Module OutlineServer.

Definition SUPPORTED_CIPHERS : list string :=
  ["chacha20-ietf-poly1305"; "aes-128-gcm"; "aes-192-gcm"; "aes-256-gcm"].

Definition isServerCipherSupported (cipher : option string) : bool :=
  match cipher with
  | None => false
  | Some c => bool_decide (c ∈ SUPPORTED_CIPHERS)
  end.

Definition config (s : Server.t) : ServerConfig.t :=
  Tunnel.config (Server.tunnel s).

Definition set_config (c : ServerConfig.t) (s : Server.t) : Server.t :=
  Server.set_tunnel (Tunnel.set_config c (Server.tunnel s)) s.

Definition host (s : Server.t) : string :=
  match proxy (config s) with
  | Some p => ShadowsocksConfig.host p +:+ ":" +:+ pretty (port p)
  | None =>
      match source (config s) with
      | Some src => url src
      | None => ""
      end
  end.

Definition name (s : Server.t) : string :=
  or_else (ServerConfig.name (config s))
    (or_else (proxy (config s) ≫= ShadowsocksConfig.name) (host s)).

(** The setter [set name(newName)]. *)
Definition rename_proxy (newName : string) (p : ShadowsocksConfig.t) : ShadowsocksConfig.t :=
  {| ShadowsocksConfig.host := ShadowsocksConfig.host p;
     port := port p;
     password := password p;
     method := method p;
     ShadowsocksConfig.name := Some newName |}.

Definition set_name (newName : string) (s : Server.t) : Server.t :=
  let c := config s in
  set_config
    {| ServerConfig.name := Some newName;
       proxy := rename_proxy newName <$> proxy c;
       source := source c |} s.

(** The two listeners that the constructor registers on the tunnel. The
    const enum [TunnelStatus] numbers CONNECTED, DISCONNECTED and
    RECONNECTING from 0; any other status is dropped. *)
Definition statusChanged (status : Z) (s : Server.t) (queue : list OutlineEvent)
  : list OutlineEvent :=
  match status with
  | 0%Z => enqueue (ServerConnected s) queue
  | 1%Z => enqueue (ServerDisconnected s) queue
  | 2%Z => enqueue (ServerReconnecting s) queue
  | _ => queue
  end.

Definition configSourceUrlChanged (url : string) (s : Server.t)
    (queue : list OutlineEvent) : list OutlineEvent :=
  enqueue (ServerConfigSourceUrlChanged s url) queue.

(** The error that the [catch] block of [connect] throws for the error [e]
    that it caught. *)
Definition rethrown {errors : ErrorTable} (e : Error) : Error :=
  match errorCode e with
  | Some c => if decide (c = 0%Z) then e else fromErrorCode c
  | None => e
  end.

Section Methods.
Context {errors : ErrorTable} {tunnels : TunnelClass}.

(** The [try] block of [connect], on the tunnel. *)
Definition connect_attempt (tn : Tunnel.t) : result Error unit * Tunnel.t :=
  match source (Tunnel.config tn) with
  | Some _ =>
      match fetchProxyConfig tn with
      | (Ok (Some proxies), tn1) => start (Tunnel.set_proxy (head proxies) tn1)
      | (Ok None, tn1) => (Throw TypeError, tn1)
      | (Throw e, tn1) => (Throw e, tn1)
      end
  | None => start tn
  end.

Definition connect (s : Server.t) : result Error unit * Server.t :=
  match connect_attempt (Server.tunnel s) with
  | (Ok u, tn) => (Ok u, Server.set_tunnel tn s)
  | (Throw e, tn) =>
      let tn' :=
        match source (Tunnel.config tn) with
        | Some _ => Tunnel.set_proxy None tn
        | None => tn
        end in
      (Throw (rethrown e), Server.set_tunnel tn' s)
  end.

Definition disconnect (s : Server.t) : result Error unit * Server.t :=
  let '(r, tn) := stop (Server.tunnel s) in
  let tn' :=
    match source (Tunnel.config tn) with
    | Some _ => Tunnel.set_proxy None tn
    | None => tn
    end in
  (match r with Ok u => Ok u | Throw _ => Throw RegularNativeError end,
   Server.set_tunnel tn' s).
End Methods.

End OutlineServer.

(** ** [fake_tunnel.ts] *)

Module FakeOutlineTunnel.

(** [String.prototype.toLowerCase] on the ASCII letters, which is all that
    [includes('broken')] and [includes('unreachable')] can see. *)
Definition lower (c : Ascii.ascii) : Ascii.ascii :=
  let n := Ascii.nat_of_ascii c in
  if (65 <=? n)%nat && (n <=? 90)%nat then Ascii.ascii_of_nat (n + 32) else c.

Fixpoint toLowerCase (s : string) : string :=
  match s with
  | EmptyString => EmptyString
  | String c s' => String (lower c) (toLowerCase s')
  end.

Fixpoint startsWith (needle s : string) : bool :=
  match needle, s with
  | EmptyString, _ => true
  | String a needle', String b s' => bool_decide (a = b) && startsWith needle' s'
  | String _ _, EmptyString => false
  end.

Fixpoint includes (needle s : string) : bool :=
  startsWith needle s ||
  match s with
  | EmptyString => false
  | String _ s' => includes needle s'
  end.

(** [this.config.name?.toLowerCase().includes(word)], as a condition *)
Definition plays (word : string) (tn : Tunnel.t) : bool :=
  match ServerConfig.name (Tunnel.config tn) with
  | Some n => includes word (toLowerCase n)
  | None => false
  end.

Definition playBroken : Tunnel.t → bool := plays "broken".
Definition playUnreachable : Tunnel.t → bool := plays "unreachable".

Definition fetchProxyConfig (tn : Tunnel.t)
  : result Error (option (list ShadowsocksConfig.t)) * Tunnel.t :=
  match source (Tunnel.config tn) with
  | None => (Throw IllegalServerConfiguration, tn)
  | Some _ =>
      (Ok (Some [ {| host := "127.0.0.1"; port := 1080; password := "test";
                     method := Some "chacha20-ietf-poly1305";
                     ShadowsocksConfig.name := Some "Dynamic Server" |} ]), tn)
  end.

Definition start {errors : ErrorTable} (tn : Tunnel.t) : result Error unit * Tunnel.t :=
  if Tunnel.running tn then (Ok (), tn)
  else match proxy (Tunnel.config tn) with
       | None => (Throw IllegalServerConfiguration, tn)
       | Some _ =>
           if playUnreachable tn then (Throw (OutlinePluginError SERVER_UNREACHABLE), tn)
           else if playBroken tn then (Throw (OutlinePluginError SHADOWSOCKS_START_FAILURE), tn)
           else (Ok (), Tunnel.set_running true tn)
       end.

Definition stop (tn : Tunnel.t) : result Error unit * Tunnel.t :=
  if Tunnel.running tn then (Ok (), Tunnel.set_running false tn) else (Ok (), tn).

Definition isRunning (tn : Tunnel.t) : bool := Tunnel.running tn.
Definition isReachable (tn : Tunnel.t) : bool := negb (playUnreachable tn).

#[export] Instance tunnel_class {errors : ErrorTable} : TunnelClass :=
  Build_TunnelClass fetchProxyConfig start stop.

End FakeOutlineTunnel.

(** ** [electron_outline_tunnel.ts] *)

Module ElectronOutlineTunnel.

(** What a rejected [promiseIpc.send] throws: [e: number|Error]. *)
Inductive Rejection : Type :=
| RejectedNumber (n : Z)
| RejectedError (e : Error).

(** The answers of the main process to the three messages that the tunnel
    sends; [None] is an answer without a value. *)
Class MainProcess : Type := {
  fetch_proxy_config :
    ProxyConfigSource.t → result Rejection (option (list ShadowsocksConfig.t));
  start_proxying : ServerConfig.t → string → result Rejection unit;
  stop_proxying : result Rejection unit;
}.

Definition handleMainProcessError (e : Rejection) : Error :=
  match e with
  | RejectedNumber n => OutlinePluginError n
  | RejectedError e' => e'
  end.

Section Methods.
Context {main : MainProcess}.

(** Returns nothing: the fetched proxy is written to [this.config.proxy]. *)
Definition fetchProxyConfig (tn : Tunnel.t)
  : result Error (option (list ShadowsocksConfig.t)) * Tunnel.t :=
  match source (Tunnel.config tn) with
  | None => (Throw InvalidServerCredentials, tn)
  | Some src =>
      match fetch_proxy_config src with
      | Ok (Some proxies) => (Ok None, Tunnel.set_proxy (head proxies) tn)
      | Ok None => (Throw (handleMainProcessError (RejectedError TypeError)), tn)
      | Throw e => (Throw (handleMainProcessError e), tn)
      end
  end.

Definition start (tn : Tunnel.t) : result Error unit * Tunnel.t :=
  if Tunnel.running tn then (Ok (), tn)
  else match start_proxying (Tunnel.config tn) (Tunnel.id tn) with
       | Ok _ => (Ok (), Tunnel.set_running true tn)
       | Throw e => (Throw (handleMainProcessError e), tn)
       end.

Definition stop (tn : Tunnel.t) : result Error unit * Tunnel.t :=
  if Tunnel.running tn
  then match stop_proxying with
       | Ok _ => (Ok (), Tunnel.set_running false tn)
       | Throw _ => (Ok (), tn)
       end
  else (Ok (), tn).

Definition isRunning (tn : Tunnel.t) : bool := Tunnel.running tn.

#[export] Instance tunnel_class : TunnelClass :=
  Build_TunnelClass fetchProxyConfig start stop.
End Methods.

End ElectronOutlineTunnel.

(** ** [persistent_server.ts] *)

(** The platform functions that the repository calls. [JSON_parse] answers
    with the message of the [SyntaxError] or with the parsed value. *)
Class Runtime : Type := {
  JSON_parse : string → string + json;
  JSON_stringify : json → string;
}.

(** [PersistentServerFactory]: the injected constructor of servers. It
    receives the configuration as the JavaScript value it is at run time. *)
Class PersistentServerFactory : Type :=
  createServer : string → json → result Error Server.t.

Definition configsMatch (left right : ServerConfig.t) : bool :=
  match source left, source right with
  | Some ls, Some rs => bool_decide (url ls = url rs)
  | _, _ =>
      match proxy left, proxy right with
      | Some lp, Some rp =>
          bool_decide (host lp = host rp) && bool_decide (port lp = port rp) &&
          bool_decide (method lp = method rp) && bool_decide (password lp = password rp)
      | _, _ => false
      end
  end.

Definition isServerCipherSupported (config : ServerConfig.t) : bool :=
  match proxy config with
  | None => true
  | Some p => OutlineServer.isServerCipherSupported (method p)
  end.

Module PersistentServerRepository.

Definition SERVERS_STORAGE_KEY_V0 : string := "servers".
Definition SERVERS_STORAGE_KEY : string := "servers_v1".

(** The fields of the repository, with the two collaborators it holds: the
    event queue and the storage, a key-value store of strings. *)
Record t : Type := {
  serverById : list (string * Server.t);
  lastForgottenServer : option Server.t;
  eventQueue : list OutlineEvent;
  storage : gmap string string;
}.

Definition set_serverById (m : list (string * Server.t)) (r : t) : t :=
  {| serverById := m; lastForgottenServer := lastForgottenServer r;
     eventQueue := eventQueue r; storage := storage r |}.
Definition set_lastForgottenServer (v : option Server.t) (r : t) : t :=
  {| serverById := serverById r; lastForgottenServer := v;
     eventQueue := eventQueue r; storage := storage r |}.
Definition set_eventQueue (q : list OutlineEvent) (r : t) : t :=
  {| serverById := serverById r; lastForgottenServer := lastForgottenServer r;
     eventQueue := q; storage := storage r |}.
Definition set_storage (st : gmap string string) (r : t) : t :=
  {| serverById := serverById r; lastForgottenServer := lastForgottenServer r;
     eventQueue := eventQueue r; storage := st |}.

Definition emit (e : OutlineEvent) (r : t) : t :=
  set_eventQueue (enqueue e (eventQueue r)) r.

Definition getAll (r : t) : list Server.t := JsMap.values (serverById r).

Definition getById (serverId : string) (r : t) : option Server.t :=
  JsMap.get serverId (serverById r).

Definition serverFromConfig (config : ServerConfig.t) (r : t) : option Server.t :=
  List.find (λ server, configsMatch (OutlineServer.config server) config) (getAll r).

Definition containsServer (config : ServerConfig.t) (r : t) : bool :=
  bool_decide (is_Some (serverFromConfig config r)).

(** The object [configById] that [storeServers] builds. *)
Definition configById_of (servers : list Server.t) : list (string * json) :=
  foldl (λ configById server,
           JsObject.set (Server.id server)
             (json_of_config (OutlineServer.config server)) configById)
        [] servers.

(** [if (!isServerCipherSupported(server.config))
      server.errorMessageId = 'unsupported-cipher';] *)
Definition flag_unsupported (server : Server.t) : Server.t :=
  if isServerCipherSupported (OutlineServer.config server) then server
  else Server.set_errorMessageId (Some "unsupported-cipher") server.

Section Methods.
Context {runtime : Runtime} {factory : PersistentServerFactory}.

Definition storeServers (r : t) : t :=
  let json := JSON_stringify (JObj (configById_of (getAll r))) in
  set_storage (<[SERVERS_STORAGE_KEY := json]> (storage r)) r.

(** [uuid] is the value that the call [uuidv4()] returns. *)
Definition add (uuid : string) (serverConfig : ServerConfig.t) (r : t)
  : result Error unit * t :=
  match serverFromConfig serverConfig r with
  | Some alreadyAddedServer => (Throw (ServerAlreadyAdded alreadyAddedServer), r)
  | None =>
      if negb (isServerCipherSupported serverConfig)
      then (Throw (ShadowsocksUnsupportedCipher
                     (or_else (proxy serverConfig ≫= method) "unknown")), r)
      else
        match createServer uuid (json_of_config serverConfig) with
        | Throw e => (Throw e, r)
        | Ok server =>
            let r1 := set_serverById (JsMap.set (Server.id server) server (serverById r)) r in
            let r2 := storeServers r1 in
            (Ok (), emit (ServerAdded server) r2)
        end
  end.

Definition update (serverId : string) (config : ServerConfig.t) (r : t)
  : result Error unit * t :=
  match getById serverId r with
  | None => (Ok (), r)
  | Some server =>
      if decide (url <$> source config = url <$> source (OutlineServer.config server))
      then (Ok (), r)
      else
        let server' :=
          OutlineServer.set_config
            (ServerConfig.set_source (source config) (OutlineServer.config server)) server in
        (Ok (), storeServers (set_serverById (JsMap.set serverId server' (serverById r)) r))
  end.

Definition rename (serverId newName : string) (r : t) : result Error unit * t :=
  match getById serverId r with
  | None => (Ok (), r)
  | Some server =>
      let server' := OutlineServer.set_name newName server in
      let r1 := set_serverById (JsMap.set serverId server' (serverById r)) r in
      (Ok (), emit (ServerRenamed server') (storeServers r1))
  end.

Definition forget (serverId : string) (r : t) : result Error unit * t :=
  match getById serverId r with
  | None => (Ok (), r)
  | Some server =>
      let r1 := set_serverById (JsMap.delete serverId (serverById r)) r in
      let r2 := set_lastForgottenServer (Some server) r1 in
      (Ok (), emit (ServerForgotten server) (storeServers r2))
  end.

Definition undoForget (serverId : string) (r : t) : result Error unit * t :=
  match lastForgottenServer r with
  | None => (Ok (), r)
  | Some server =>
      if decide (Server.id server ≠ serverId) then (Ok (), r)
      else
        let r1 := set_serverById (JsMap.set (Server.id server) server (serverById r)) r in
        let r2 := emit (ServerForgetUndone server) (storeServers r1) in
        (Ok (), set_lastForgottenServer None r2)
  end.

(** One round of the loop of [loadServers]: a server that the factory
    fails to build is skipped. *)
Definition load_entry (servers : list (string * Server.t)) (entry : string * json)
  : list (string * Server.t) :=
  match createServer entry.1 entry.2 with
  | Ok server => JsMap.set entry.1 (flag_unsupported server) servers
  | Throw _ => servers
  end.

Definition loadServers (st : gmap string string)
  : result Error (list (string * Server.t)) :=
  match st !! SERVERS_STORAGE_KEY with
  | None => Ok []
  | Some serversJson =>
      if decide (serversJson = "") then Ok []
      else
        match JSON_parse serversJson with
        | inl message => Throw (JsError ("could not parse saved servers: " +:+ message))
        | inr configById => Ok (foldl load_entry [] (for_in configById))
        end
  end.

(** One round of the loop of [migrateStorageV1]; reading [proxy.name] throws
    when the entry is [null]. *)
Definition migrate_entry (acc : result Error (list (string * json))) (entry : string * json)
  : result Error (list (string * json)) :=
  match acc with
  | Throw e => Throw e
  | Ok configByIdV1 =>
      match get_name entry.2 with
      | None => Throw TypeError
      | Some name =>
          Ok (JsObject.set entry.1
                (JObj (("proxy", entry.2) :: optional "name" name)) configByIdV1)
      end
  end.

Definition migrateStorageV1 (st : gmap string string)
  : result Error unit * gmap string string :=
  if truthy (st !! SERVERS_STORAGE_KEY) then (Ok (), st)
  else
    match st !! SERVERS_STORAGE_KEY_V0 with
    | None => (Ok (), st)
    | Some serversJsonV0 =>
        if decide (serversJsonV0 = "") then (Ok (), st)
        else
          match JSON_parse serversJsonV0 with
          | inl _ => (Ok (), st)
          | inr configByIdV0 =>
              match foldl migrate_entry (Ok []) (for_in configByIdV0) with
              | Throw e => (Throw e, st)
              | Ok configByIdV1 =>
                  (Ok (),
                   <[SERVERS_STORAGE_KEY := JSON_stringify (JObj configByIdV1)]> st)
              end
          end
    end.

(** The constructor: the repository it builds, or the exception it throws,
    and the storage it leaves. *)
Definition new (queue : list OutlineEvent) (st : gmap string string)
  : result Error t * gmap string string :=
  match migrateStorageV1 st with
  | (Throw e, st1) => (Throw e, st1)
  | (Ok _, st1) =>
      match loadServers st1 with
      | Throw e => (Throw e, st1)
      | Ok servers =>
          (Ok {| serverById := servers; lastForgottenServer := None;
                 eventQueue := queue; storage := st1 |}, st1)
      end
  end.
End Methods.

End PersistentServerRepository.

(** ** A reference [JSON] codec

    An executable [Runtime] for running the model on concrete storage
    contents: the printer and a recursive-descent parser for the documents
    that the repository stores (objects, arrays, strings with the simple
    escapes, integers and the three literals). *)

Module ReferenceJSON.

Definition dquote : Ascii.ascii := Ascii.ascii_of_nat 34.
Definition backslash : Ascii.ascii := Ascii.ascii_of_nat 92.

Fixpoint escape (s : string) : string :=
  match s with
  | EmptyString => EmptyString
  | String c s' =>
      if decide (c = dquote) then String backslash (String dquote (escape s'))
      else if decide (c = backslash) then String backslash (String backslash (escape s'))
      else if decide (c = Ascii.ascii_of_nat 10) then String backslash (String "n"%char (escape s'))
      else String c (escape s')
  end.

Definition quote (s : string) : string :=
  String dquote (escape s +:+ String dquote EmptyString).

Definition join (l : list string) : string :=
  match l with
  | [] => ""
  | x :: l' => foldl (λ acc y, acc +:+ "," +:+ y) x l'
  end.

Fixpoint stringify (j : json) : string :=
  match j with
  | JNull => "null"
  | JBool b => if b then "true" else "false"
  | JNum n => pretty n
  | JStr s => quote s
  | JArr items =>
      "[" +:+ join ((fix all (l : list json) : list string :=
                      match l with
                      | [] => []
                      | x :: l' => stringify x :: all l'
                      end) items) +:+ "]"
  | JObj props =>
      "{" +:+ join ((fix all (l : list (string * json)) : list string :=
                      match l with
                      | [] => []
                      | (k, v) :: l' => (quote k +:+ ":" +:+ stringify v) :: all l'
                      end) props) +:+ "}"
  end.

Definition is_space (c : Ascii.ascii) : bool :=
  let n := Ascii.nat_of_ascii c in
  (n =? 32)%nat || (n =? 9)%nat || (n =? 10)%nat || (n =? 13)%nat.

Fixpoint skip_space (s : string) : string :=
  match s with
  | String c s' => if is_space c then skip_space s' else s
  | EmptyString => s
  end.

(** The rest of a string literal after its opening quote: the characters
    read so far, in reverse, are in [acc]. *)
Fixpoint string_body (acc : list Ascii.ascii) (s : string) : option (string * string) :=
  match s with
  | EmptyString => None
  | String c s' =>
      if decide (c = dquote) then Some (String.string_of_list_ascii (reverse acc), s')
      else if decide (c = backslash) then
        match s' with
        | EmptyString => None
        | String e s'' =>
            if decide (e = dquote) then string_body (dquote :: acc) s''
            else if decide (e = backslash) then string_body (backslash :: acc) s''
            else if decide (e = "/"%char) then string_body ("/"%char :: acc) s''
            else if decide (e = "n"%char) then string_body (Ascii.ascii_of_nat 10 :: acc) s''
            else None
        end
      else string_body (c :: acc) s'
  end.

Fixpoint digits (acc : N) (s : string) : N * string :=
  match s with
  | String c s' =>
      if JsObject.is_digit c
      then digits (acc * 10 + (N.of_nat (Ascii.nat_of_ascii c) - 48))%N s'
      else (acc, s)
  | EmptyString => (acc, s)
  end.

Definition starts_number (s : string) : bool :=
  match s with
  | String c _ => JsObject.is_digit c
  | EmptyString => false
  end.

(** An integer; a fraction or an exponent is not read. *)
Definition number (s : string) : option (Z * string) :=
  let '(negative, s1) :=
    match s with
    | String "-"%char s' => (true, s')
    | _ => (false, s)
    end in
  if starts_number s1 then
    let '(n, rest) := digits 0 s1 in
    match rest with
    | String "."%char _ | String "e"%char _ | String "E"%char _ => None
    | _ => Some (if negative then (- Z.of_N n)%Z else Z.of_N n, rest)
    end
  else None.

Definition literal (word : string) (v : json) (s : string) : option (json * string) :=
  if FakeOutlineTunnel.startsWith word s
  then Some (v, String.substring (String.length word) (String.length s - String.length word) s)
  else None.

Fixpoint value (fuel : nat) (s : string) : option (json * string) :=
  match fuel with
  | O => None
  | S fuel' =>
      match skip_space s with
      | EmptyString => None
      | String c rest =>
          if decide (c = dquote) then
            match string_body [] rest with
            | Some (str, rest') => Some (JStr str, rest')
            | None => None
            end
          else if decide (c = "["%char) then
            match skip_space rest with
            | String "]"%char rest' => Some (JArr [], rest')
            | _ => elements fuel' [] rest
            end
          else if decide (c = "{"%char) then
            match skip_space rest with
            | String "}"%char rest' => Some (JObj [], rest')
            | _ => members fuel' [] rest
            end
          else if decide (c = "n"%char) then literal "null" JNull (String c rest)
          else if decide (c = "t"%char) then literal "true" (JBool true) (String c rest)
          else if decide (c = "f"%char) then literal "false" (JBool false) (String c rest)
          else
            match number (String c rest) with
            | Some (n, rest') => Some (JNum n, rest')
            | None => None
            end
      end
  end
with elements (fuel : nat) (acc : list json) (s : string) : option (json * string) :=
  match fuel with
  | O => None
  | S fuel' =>
      match value fuel' s with
      | Some (v, rest) =>
          match skip_space rest with
          | String ","%char rest' => elements fuel' (acc ++ [v]) rest'
          | String "]"%char rest' => Some (JArr (acc ++ [v]), rest')
          | _ => None
          end
      | None => None
      end
  end
with members (fuel : nat) (acc : list (string * json)) (s : string) : option (json * string) :=
  match fuel with
  | O => None
  | S fuel' =>
      match skip_space s with
      | String c rest =>
          if decide (c = dquote) then
            match string_body [] rest with
            | Some (k, rest1) =>
                match skip_space rest1 with
                | String ":"%char rest2 =>
                    match value fuel' rest2 with
                    | Some (v, rest3) =>
                        match skip_space rest3 with
                        | String ","%char rest4 => members fuel' (JsObject.set k v acc) rest4
                        | String "}"%char rest4 => Some (JObj (JsObject.set k v acc), rest4)
                        | _ => None
                        end
                    | None => None
                    end
                | _ => None
                end
            | None => None
            end
          else None
      | EmptyString => None
      end
  end.

Definition parse (s : string) : string + json :=
  match value (S (String.length s)) s with
  | Some (v, rest) =>
      match skip_space rest with
      | EmptyString => inr v
      | String _ _ => inl "Unexpected token in JSON"
      end
  | None => inl "Unexpected end of JSON input"
  end.

#[export] Instance runtime : Runtime :=
  {| JSON_parse := parse; JSON_stringify := stringify |}.

End ReferenceJSON.

(** ** Vocabulary of the properties *)

Definition same_source (A B : ServerConfig.t) : Prop :=
  ∃ sa sb, source A = Some sa ∧ source B = Some sb ∧ url sa = url sb.

Definition same_proxy (A B : ServerConfig.t) : Prop :=
  ∃ pa pb, proxy A = Some pa ∧ proxy B = Some pb ∧
    (host pa, port pa, method pa, password pa) =
    (host pb, port pb, method pb, password pb).

(** The matching rule in the words of the specification: both configurations
    define a source with equal URLs, or both define a proxy with equal
    [(host, port, method, password)]. *)
Definition spec_match_rule (A B : ServerConfig.t) : Prop :=
  same_source A B ∨ same_proxy A B.

(** The laws of the platform functions that the repository relies on:
    the empty text is not JSON, and the text of an object is not empty. *)
Class RuntimeLaws (runtime : Runtime) : Prop := {
  JSON_parse_empty : ∃ message, JSON_parse "" = inl message;
  JSON_stringify_object : ∀ props, JSON_stringify (JObj props) ≠ "";
}.

(** A tunnel implementation that never takes the [source] away from the
    configuration of the tunnel. *)
Class KeepsSource (tunnels : TunnelClass) : Prop := {
  fetchProxyConfig_source :
    ∀ tn, is_Some (source (Tunnel.config tn)) →
          is_Some (source (Tunnel.config (fetchProxyConfig tn).2));
  start_source :
    ∀ tn, is_Some (source (Tunnel.config tn)) →
          is_Some (source (Tunnel.config (start tn).2));
}.

(** A factory that gives the server the id that it was asked for, as
    [new OutlineServer(id, ...)] does. *)
Class HonoursId (factory : PersistentServerFactory) : Prop :=
  createServer_id :
    ∀ id config server, createServer id config = Ok server → Server.id server = id.

(** Every entry of the map is filed under the id of its server, and no key
    occurs twice. *)
Definition keyed_by_id (r : PersistentServerRepository.t) : Prop :=
  NoDup (JsMap.keys (PersistentServerRepository.serverById r)) ∧
  ∀ k server,
    (k, server) ∈ PersistentServerRepository.serverById r → Server.id server = k.

(** The repositories that the constructor and the public methods produce.
    The last rule is a change of the tunnel of a tracked server from outside
    the repository, such as [connect] and [disconnect] make. *)
Inductive reachable {runtime : Runtime} {factory : PersistentServerFactory}
  : PersistentServerRepository.t → Prop :=
| reachable_new queue st r st' :
    PersistentServerRepository.new queue st = (Ok r, st') → reachable r
| reachable_add uuid config r :
    reachable r → reachable (PersistentServerRepository.add uuid config r).2
| reachable_update id config r :
    reachable r → reachable (PersistentServerRepository.update id config r).2
| reachable_rename id newName r :
    reachable r → reachable (PersistentServerRepository.rename id newName r).2
| reachable_forget id r :
    reachable r → reachable (PersistentServerRepository.forget id r).2
| reachable_undoForget id r :
    reachable r → reachable (PersistentServerRepository.undoForget id r).2
| reachable_tunnel id server tn r :
    reachable r →
    PersistentServerRepository.getById id r = Some server →
    reachable
      (PersistentServerRepository.set_serverById
         (JsMap.set id (Server.set_tunnel tn server)
            (PersistentServerRepository.serverById r)) r).

(** ** Concrete data for running the model *)

Module Example.

Definition string_field (k : string) (props : list (string * json)) : option string :=
  match JsObject.get k props with
  | Some (JStr s) => Some s
  | _ => None
  end.

Definition proxy_of_json (j : json) : option ShadowsocksConfig.t :=
  match j with
  | JObj props =>
      match string_field "host" props, JsObject.get "port" props,
            string_field "password" props with
      | Some h, Some (JNum n), Some pw =>
          Some {| host := h; port := n; password := pw;
                  method := string_field "method" props;
                  ShadowsocksConfig.name := string_field "name" props |}
      | _, _, _ => None
      end
  | _ => None
  end.

Definition source_of_json (j : json) : option ProxyConfigSource.t :=
  match j with
  | JObj props => (λ u, {| url := u |}) <$> string_field "url" props
  | _ => None
  end.

Definition config_of_json (j : json) : option ServerConfig.t :=
  match j with
  | JObj props =>
      Some {| ServerConfig.name := string_field "name" props;
              proxy := JsObject.get "proxy" props ≫= proxy_of_json;
              source := JsObject.get "source" props ≫= source_of_json |}
  | _ => None
  end.

(** A factory in the manner of [new OutlineServer(id, new Tunnel(config, id),
    eventQueue)], where the tunnel constructor throws if [config] includes
    neither a proxy nor a source. *)
#[export] Instance factory : PersistentServerFactory := λ id config,
  match config_of_json config with
  | Some c =>
      if bool_decide (is_Some (proxy c)) || bool_decide (is_Some (source c))
      then Ok {| Server.id := id;
                 Server.tunnel := {| Tunnel.config := c; Tunnel.id := id;
                                     Tunnel.running := false |};
                 Server.errorMessageId := None |}
      else Throw IllegalServerConfiguration
  | None => Throw IllegalServerConfiguration
  end.

#[export] Instance error_table : ErrorTable :=
  {| fromErrorCode := OutlinePluginError;
     SERVER_UNREACHABLE := 5;
     SHADOWSOCKS_START_FAILURE := 8 |}.

Definition static_proxy : ShadowsocksConfig.t :=
  {| host := "h"; port := 1; password := "p"; method := Some "aes-128-gcm";
     ShadowsocksConfig.name := Some "N" |}.

Definition static_config : ServerConfig.t :=
  {| ServerConfig.name := Some "N"; proxy := Some static_proxy; source := None |}.

(** Two dynamic servers with different sources, both connected through the
    same proxy. *)
Definition connected_a : ServerConfig.t :=
  {| ServerConfig.name := None; proxy := Some static_proxy;
     source := Some {| url := "https://a.example/key" |} |}.

Definition connected_b : ServerConfig.t :=
  {| ServerConfig.name := None; proxy := Some static_proxy;
     source := Some {| url := "https://b.example/key" |} |}.

Definition dynamic_config : ServerConfig.t :=
  {| ServerConfig.name := Some "Broken server"; proxy := None;
     source := Some {| url := "https://a.example/key" |} |}.

(** A proxy whose cipher is the empty string. *)
Definition empty_method_config : ServerConfig.t :=
  {| ServerConfig.name := None;
     proxy := Some {| host := "h"; port := 1; password := "p"; method := Some "";
                      ShadowsocksConfig.name := None |};
     source := None |}.

Definition rc4_config : ServerConfig.t :=
  {| ServerConfig.name := None;
     proxy := Some {| host := "h"; port := 1; password := "p";
                      method := Some "rc4-md5"; ShadowsocksConfig.name := None |};
     source := None |}.

Definition server_of (id : string) (c : ServerConfig.t) : Server.t :=
  {| Server.id := id;
     Server.tunnel := {| Tunnel.config := c; Tunnel.id := id; Tunnel.running := false |};
     Server.errorMessageId := None |}.

Definition empty_repository : PersistentServerRepository.t :=
  {| PersistentServerRepository.serverById := [];
     PersistentServerRepository.lastForgottenServer := None;
     PersistentServerRepository.eventQueue := [];
     PersistentServerRepository.storage := ∅ |}.

(** A repository that tracks two servers. *)
Definition two_servers : PersistentServerRepository.t :=
  {| PersistentServerRepository.serverById :=
       [("s1", server_of "s1" static_config); ("s2", server_of "s2" dynamic_config)];
     PersistentServerRepository.lastForgottenServer := None;
     PersistentServerRepository.eventQueue := [];
     PersistentServerRepository.storage := ∅ |}.

(** The same repository after a third server, [s3], was forgotten. *)
Definition after_forget : PersistentServerRepository.t :=
  PersistentServerRepository.set_lastForgottenServer
    (Some (server_of "s3" rc4_config)) two_servers.

(** The legacy record of the specification. *)
Definition legacy_proxy : json :=
  JObj [("host", JStr "h"); ("port", JNum 1); ("password", JStr "p");
        ("method", JStr "aes-128-gcm"); ("name", JStr "N")].

Definition legacy_storage : gmap string string :=
  {[ PersistentServerRepository.SERVERS_STORAGE_KEY_V0 :=
       ReferenceJSON.stringify (JObj [("s1", legacy_proxy)]) ]}.

(** A current record with an entry that is not a configuration. *)
Definition damaged_storage : gmap string string :=
  {[ PersistentServerRepository.SERVERS_STORAGE_KEY :=
       ReferenceJSON.stringify
         (JObj [("bad", JNull); ("good", json_of_config static_config)]) ]}.

End Example.

(** ** Further vocabulary and data *)

(** The current key of the storage holds the text of the map as it is. *)
Definition persisted {runtime : Runtime} (r : PersistentServerRepository.t) : Prop :=
  PersistentServerRepository.storage r !! PersistentServerRepository.SERVERS_STORAGE_KEY
  = Some (JSON_stringify
            (JObj (PersistentServerRepository.configById_of
                     (PersistentServerRepository.getAll r)))).


(** What [migrateStorageV1] stores for a legacy entry that is not [null]:
    [{proxy, name}] with [name] read from the entry. *)
Definition migrated_entry (entry : json) : json :=
  JObj (("proxy", entry) :: optional "name" (default None (get_name entry))).

(** What [loadServers] keeps of one entry of the stored record. *)
Definition loaded_entry {factory : PersistentServerFactory} (entry : string * json)
  : option (string * Server.t) :=
  match createServer entry.1 entry.2 with
  | Ok server => Some (entry.1, PersistentServerRepository.flag_unsupported server)
  | Throw _ => None
  end.

Module Scenario.

(** A dynamic server that the fake tunnel connects. *)
Definition home_config : ServerConfig.t :=
  {| ServerConfig.name := Some "Home"; proxy := None;
     source := Some {| url := "https://a.example/key" |} |}.

(** The proxy that the fake tunnel fetches. *)
Definition fetched_proxy : ShadowsocksConfig.t :=
  {| host := "127.0.0.1"; port := 1080; password := "test";
     method := Some "chacha20-ietf-poly1305";
     ShadowsocksConfig.name := Some "Dynamic Server" |}.


(** The repository of two servers with the text of its map in the storage. *)
Definition stored_two_servers : PersistentServerRepository.t :=
  PersistentServerRepository.storeServers (runtime := ReferenceJSON.runtime)
    Example.two_servers.

(** A current record that is cut off. *)
Definition corrupted_storage : gmap string string :=
  {[ PersistentServerRepository.SERVERS_STORAGE_KEY := "{" ]}.

(** A legacy record with an entry that is [null]. *)
Definition null_legacy_storage : gmap string string :=
  {[ PersistentServerRepository.SERVERS_STORAGE_KEY_V0 :=
       ReferenceJSON.stringify (JObj [("s1", Example.legacy_proxy); ("s2", JNull)]) ]}.

(** A legacy record of two servers, the second without a name. *)
Definition nameless_legacy_proxy : json :=
  JObj [("host", JStr "h2"); ("port", JNum 2); ("password", JStr "p");
        ("method", JStr "aes-256-gcm")].

Definition two_legacy_storage : gmap string string :=
  {[ PersistentServerRepository.SERVERS_STORAGE_KEY_V0 :=
       ReferenceJSON.stringify
         (JObj [("s1", Example.legacy_proxy); ("s2", nameless_legacy_proxy)]) ]}.


End Scenario.

(** * Properties *)

(** ** The matching rule *)

Lemma same_source_sym A B : same_source A B → same_source B A.
Proof. intros (sa & sb & ? & ? & ?). exists sb, sa. auto. Qed.

Lemma configsMatch_sym A B : configsMatch A B = configsMatch B A.
Proof.
  unfold configsMatch.
  destruct (source A) as [sa|], (source B) as [sb|],
           (proxy A) as [pa|], (proxy B) as [pb|]; try reflexivity;
    repeat match goal with
           | |- context [bool_decide (?x = ?y)] =>
               rewrite (bool_decide_ext (x = y) (y = x)) by (split; congruence);
               generalize (bool_decide (y = x)); intro
           end; reflexivity.
Qed.

Lemma configsMatch_proxies A B pa pb :
  proxy A = Some pa → proxy B = Some pb →
  (bool_decide (host pa = host pb) && bool_decide (port pa = port pb) &&
   bool_decide (method pa = method pb) && bool_decide (password pa = password pb)
   = true) ↔ same_proxy A B.
Proof.
  intros HA HB. rewrite !andb_true_iff, !bool_decide_eq_true. split.
  - intros [[[? ?] ?] ?]. exists pa, pb. repeat split; try assumption. congruence.
  - intros (pa' & pb' & HA' & HB' & Heq).
    rewrite HA in HA'. rewrite HB in HB'. simplify_eq. auto.
Qed.

(** C1, as amended: [configsMatch] is symmetric; it holds exactly when both
    configurations have a source and the URLs are equal, or at least one of
    them has no source and both have a proxy with equal
    (host, port, method, password); a configuration with only a source and a
    configuration with only a proxy never match. *)
Theorem configsMatch_rule (A B : ServerConfig.t) :
  configsMatch A B = configsMatch B A ∧
  (configsMatch A B = true ↔
     same_source A B ∨
     (¬ (is_Some (source A) ∧ is_Some (source B)) ∧ same_proxy A B)) ∧
  (proxy A = None → source B = None →
     configsMatch A B = false ∧ configsMatch B A = false).
Proof.
  split; [apply configsMatch_sym|]. split.
  - unfold configsMatch.
    destruct (source A) as [sa|] eqn:HsA, (source B) as [sb|] eqn:HsB.
    + rewrite bool_decide_eq_true. split.
      * intros Hu. left. exists sa, sb. auto.
      * intros [(sa' & sb' & ? & ? & ?)|[Hn _]]; [by simplify_eq|].
        destruct Hn. split; eauto.
    + destruct (proxy A) as [pa|] eqn:HpA, (proxy B) as [pb|] eqn:HpB;
        try (split; [discriminate|];
             intros [(? & ? & ? & ? & ?)|[_ (? & ? & ? & ? & ?)]]; congruence).
      rewrite (configsMatch_proxies A B pa pb HpA HpB). split.
      * intros Hp. right. split; [|exact Hp]. intros [_ [? ?]]. congruence.
      * intros [(? & ? & ? & ? & ?)|[_ Hp]]; [congruence|exact Hp].
    + destruct (proxy A) as [pa|] eqn:HpA, (proxy B) as [pb|] eqn:HpB;
        try (split; [discriminate|];
             intros [(? & ? & ? & ? & ?)|[_ (? & ? & ? & ? & ?)]]; congruence).
      rewrite (configsMatch_proxies A B pa pb HpA HpB). split.
      * intros Hp. right. split; [|exact Hp]. intros [[? ?] _]. congruence.
      * intros [(? & ? & ? & ? & ?)|[_ Hp]]; [congruence|exact Hp].
    + destruct (proxy A) as [pa|] eqn:HpA, (proxy B) as [pb|] eqn:HpB;
        try (split; [discriminate|];
             intros [(? & ? & ? & ? & ?)|[_ (? & ? & ? & ? & ?)]]; congruence).
      rewrite (configsMatch_proxies A B pa pb HpA HpB). split.
      * intros Hp. right. split; [|exact Hp]. intros [[? ?] _]. congruence.
      * intros [(? & ? & ? & ? & ?)|[_ Hp]]; [congruence|exact Hp].
  - intros HpA HsB. rewrite <- (configsMatch_sym A B).
    unfold configsMatch. rewrite HpA, HsB.
    destruct (source A); split; reflexivity.
Qed.

(** The amended rule at a dynamic and a static configuration. *)
Lemma configsMatch_rule_witness :
  proxy Example.dynamic_config = None ∧ source Example.static_config = None ∧
  configsMatch Example.dynamic_config Example.static_config = false.
Proof.
  split; [reflexivity|]. split; [reflexivity|].
  apply (configsMatch_rule Example.dynamic_config Example.static_config);
    reflexivity.
Defined.

(** C1 as the specification states it fails on configurations that carry
    both a source and a fetched proxy: two servers with different sources but
    the same proxy fall under the stated rule and do not match, and a
    configuration with a source matches one with only a proxy. *)
Lemma configsMatch_rule_counterexample :
  (spec_match_rule Example.connected_a Example.connected_b ∧
   configsMatch Example.connected_a Example.connected_b = false) ∧
  (is_Some (source Example.connected_a) ∧
   source Example.static_config = None ∧
   is_Some (proxy Example.static_config) ∧
   configsMatch Example.connected_a Example.static_config = true).
Proof.
  split.
  - split; [|reflexivity]. right.
    exists Example.static_proxy, Example.static_proxy. auto.
  - repeat split; eauto.
Qed.

(** ** Adding a server *)

Section Add.
Context {runtime : Runtime} {factory : PersistentServerFactory}.
Import PersistentServerRepository.

Lemma serverFromConfig_Some config r existing :
  serverFromConfig config r = Some existing →
  existing ∈ getAll r ∧ configsMatch (OutlineServer.config existing) config = true.
Proof.
  unfold serverFromConfig. intros Hfind.
  apply find_some in Hfind as [Hin Hmatch]. by rewrite list_elem_of_In.
Qed.

Lemma serverFromConfig_None config r :
  serverFromConfig config r = None ↔
  ∀ server, server ∈ getAll r →
            configsMatch (OutlineServer.config server) config = false.
Proof.
  unfold serverFromConfig. split.
  - intros Hfind server Hin. rewrite list_elem_of_In in Hin.
    exact (find_none _ _ Hfind server Hin).
  - intros Hnone. induction (getAll r) as [|server l IH]; [reflexivity|].
    simpl. rewrite (Hnone server) by left.
    apply IH. intros s Hs. apply Hnone. by right.
Qed.

Lemma serverFromConfig_tracked config r server :
  server ∈ getAll r →
  configsMatch (OutlineServer.config server) config = true →
  ∃ existing, serverFromConfig config r = Some existing.
Proof.
  intros Hin Hmatch.
  destruct (serverFromConfig config r) as [existing|] eqn:Hfind; [eauto|].
  rewrite serverFromConfig_None in Hfind.
  rewrite (Hfind server Hin) in Hmatch. discriminate.
Qed.

Lemma isServerCipherSupported_iff (cipher : option string) :
  OutlineServer.isServerCipherSupported cipher = true ↔
  cipher = Some "chacha20-ietf-poly1305" ∨ cipher = Some "aes-128-gcm" ∨
  cipher = Some "aes-192-gcm" ∨ cipher = Some "aes-256-gcm".
Proof.
  unfold OutlineServer.isServerCipherSupported, OutlineServer.SUPPORTED_CIPHERS.
  destruct cipher as [c|].
  - rewrite bool_decide_eq_true, !elem_of_cons, elem_of_nil. split.
    + intros [->|[->|[->|[->|[]]]]]; auto.
    + intros [?|[?|[?|?]]]; simplify_eq; auto.
  - split; [discriminate|]. intros [?|[?|[?|?]]]; discriminate.
Qed.

(** C2: when the configuration matches the configuration of a tracked server,
    [add] throws [ServerAlreadyAdded] with a tracked server that matches (the
    first one in the order of [getAll]) and returns the repository as it was:
    same map, same storage, same event queue. *)
Theorem add_existing_config (uuid : string) (config : ServerConfig.t) (r : t) :
  (∃ server, server ∈ getAll r ∧
             configsMatch (OutlineServer.config server) config = true) →
  ∃ existing,
    existing ∈ getAll r ∧
    configsMatch (OutlineServer.config existing) config = true ∧
    serverFromConfig config r = Some existing ∧
    add uuid config r = (Throw (ServerAlreadyAdded existing), r).
Proof.
  intros (server & Hin & Hmatch).
  destruct (serverFromConfig_tracked config r server Hin Hmatch) as [existing Hfind].
  exists existing. destruct (serverFromConfig_Some _ _ _ Hfind) as [? ?].
  repeat split; try assumption. unfold add. by rewrite Hfind.
Qed.

(** C3, as amended: a configuration without a proxy is supported; one with a
    proxy is supported exactly when its method is one of the four AEAD
    ciphers; and when the method of the proxy is outside that list and no
    tracked server matches, [add] throws [ShadowsocksUnsupportedCipher] with
    that method if it is a non-empty string, and with ['unknown'] if the
    method is absent or the empty string. *)
Theorem cipher_support_policy (uuid : string) (config : ServerConfig.t) (r : t) :
  (proxy config = None → isServerCipherSupported config = true) ∧
  (∀ p, proxy config = Some p →
     (isServerCipherSupported config = true ↔
        method p = Some "chacha20-ietf-poly1305" ∨ method p = Some "aes-128-gcm" ∨
        method p = Some "aes-192-gcm" ∨ method p = Some "aes-256-gcm")) ∧
  (∀ p, proxy config = Some p →
        isServerCipherSupported config = false →
        (∀ server, server ∈ getAll r →
                   configsMatch (OutlineServer.config server) config = false) →
     (∀ m, method p = Some m → m ≠ "" →
           add uuid config r = (Throw (ShadowsocksUnsupportedCipher m), r)) ∧
     (method p = None ∨ method p = Some "" →
           add uuid config r = (Throw (ShadowsocksUnsupportedCipher "unknown"), r))).
Proof.
  split; [|split].
  - intros Hp. unfold isServerCipherSupported. by rewrite Hp.
  - intros p Hp. unfold isServerCipherSupported. rewrite Hp.
    apply isServerCipherSupported_iff.
  - intros p Hp Hunsupported Hnone.
    apply serverFromConfig_None in Hnone.
    assert (add uuid config r =
            (Throw (ShadowsocksUnsupportedCipher (or_else (method p) "unknown")), r))
      as Hadd.
    { unfold add. rewrite Hnone, Hunsupported. simpl. by rewrite Hp. }
    split.
    + intros m Hm Hne. rewrite Hadd, Hm. unfold or_else.
      by destruct (decide (m = "")).
    + intros [Hm|Hm]; rewrite Hadd, Hm; reflexivity.
Qed.

(** C9: when the configuration matches a tracked server and its proxy has an
    unsupported cipher, [add] throws [ServerAlreadyAdded]; and whenever [add]
    throws [ShadowsocksUnsupportedCipher], no tracked server matches. *)
Theorem add_checks_duplicate_first (uuid : string) (config : ServerConfig.t) (r : t) :
  (isServerCipherSupported config = false →
   (∃ server, server ∈ getAll r ∧
              configsMatch (OutlineServer.config server) config = true) →
   ∃ existing, add uuid config r = (Throw (ServerAlreadyAdded existing), r)) ∧
  (∀ cipher, (add uuid config r).1 = Throw (ShadowsocksUnsupportedCipher cipher) →
     ∀ server, server ∈ getAll r →
               configsMatch (OutlineServer.config server) config = false).
Proof.
  split.
  - intros _ (server & Hin & Hmatch).
    destruct (serverFromConfig_tracked config r server Hin Hmatch) as [existing Hfind].
    exists existing. unfold add. by rewrite Hfind.
  - intros cipher Hadd. apply serverFromConfig_None.
    unfold add in Hadd.
    destruct (serverFromConfig config r) as [existing|]; [discriminate|reflexivity].
Qed.
End Add.

(** [add] of the configuration of the tracked server [s1]. *)
Lemma add_existing_config_witness :
  ∃ existing,
    existing ∈ PersistentServerRepository.getAll Example.two_servers ∧
    configsMatch (OutlineServer.config existing) Example.static_config = true ∧
    PersistentServerRepository.serverFromConfig Example.static_config
      Example.two_servers = Some existing ∧
    PersistentServerRepository.add (runtime := ReferenceJSON.runtime) (factory := Example.factory)
      "3b241101-e2bb-4255-8caf-4136c566a962" Example.static_config Example.two_servers
    = (Throw (ServerAlreadyAdded existing), Example.two_servers).
Proof.
  apply (add_existing_config (runtime := ReferenceJSON.runtime)
           (factory := Example.factory)).
  exists (Example.server_of "s1" Example.static_config).
  split; [left | reflexivity].
Defined.

(** [add] of a proxy with the cipher [rc4-md5] to an empty repository. *)
Lemma cipher_support_policy_witness :
  PersistentServerRepository.add (runtime := ReferenceJSON.runtime) (factory := Example.factory)
    "3b241101-e2bb-4255-8caf-4136c566a962" Example.rc4_config Example.empty_repository
  = (Throw (ShadowsocksUnsupportedCipher "rc4-md5"), Example.empty_repository).
Proof.
  destruct (cipher_support_policy (runtime := ReferenceJSON.runtime)
              (factory := Example.factory)
              "3b241101-e2bb-4255-8caf-4136c566a962" Example.rc4_config
              Example.empty_repository) as (_ & _ & Hadd).
  destruct (Hadd _ eq_refl eq_refl) as [Hmethod _].
  - intros server Hin. inversion Hin.
  - apply Hmethod; [reflexivity | discriminate].
Defined.

(** C3 as the specification states it fails for a proxy whose method is the
    empty string: the method is outside the list, no server is tracked, and
    [add] throws [ShadowsocksUnsupportedCipher] with ['unknown'], not with
    the method. *)
Lemma cipher_support_policy_counterexample :
  (proxy Example.empty_method_config ≫= method) = Some "" ∧
  isServerCipherSupported Example.empty_method_config = false ∧
  PersistentServerRepository.getAll Example.empty_repository = [] ∧
  PersistentServerRepository.add (runtime := ReferenceJSON.runtime) (factory := Example.factory)
    "3b241101-e2bb-4255-8caf-4136c566a962" Example.empty_method_config
    Example.empty_repository
  = (Throw (ShadowsocksUnsupportedCipher "unknown"), Example.empty_repository) ∧
  ShadowsocksUnsupportedCipher "unknown" ≠ ShadowsocksUnsupportedCipher "".
Proof. repeat split; try reflexivity. discriminate. Qed.

(** [add] of a configuration that matches the tracked server [s1] and whose
    cipher is unsupported. *)
Lemma add_checks_duplicate_first_witness :
  ∃ existing,
    PersistentServerRepository.add (runtime := ReferenceJSON.runtime) (factory := Example.factory)
      "3b241101-e2bb-4255-8caf-4136c566a962" Example.rc4_config
      (PersistentServerRepository.set_serverById
         [("s1", Example.server_of "s1" Example.rc4_config)] Example.empty_repository)
    = (Throw (ServerAlreadyAdded existing),
       PersistentServerRepository.set_serverById
         [("s1", Example.server_of "s1" Example.rc4_config)] Example.empty_repository).
Proof.
  apply (add_checks_duplicate_first (runtime := ReferenceJSON.runtime)
           (factory := Example.factory)); [reflexivity|].
  exists (Example.server_of "s1" Example.rc4_config). split; [left | reflexivity].
Defined.

(** ** The map of servers *)

Section JsMapFacts.
Context {V : Type}.
Implicit Types (m : list (string * V)) (k : string) (v : V).

Lemma JsMap_delete_cons k k' v m :
  JsMap.delete k ((k', v) :: m) =
  if decide (k' = k) then JsMap.delete k m else (k', v) :: JsMap.delete k m.
Proof.
  unfold JsMap.delete. rewrite filter_cons. simpl.
  destruct (decide (k' = k)) as [Heq|Hne].
  - rewrite decide_False; [reflexivity|]. intros Hne. by apply Hne.
  - by rewrite decide_True.
Qed.

Lemma JsMap_get_set_eq k v m : JsMap.get k (JsMap.set k v m) = Some v.
Proof.
  induction m as [|[k' v'] m IH]; simpl.
  - by rewrite decide_True.
  - destruct (decide (k' = k)); simpl.
    + by rewrite decide_True.
    + by rewrite decide_False.
Qed.

Lemma JsMap_get_set_ne k k' v m :
  k ≠ k' → JsMap.get k' (JsMap.set k v m) = JsMap.get k' m.
Proof.
  intros Hne. induction m as [|[k0 v0] m IH]; simpl.
  - by rewrite decide_False.
  - destruct (decide (k0 = k)) as [->|]; simpl.
    + by rewrite !decide_False.
    + by rewrite IH.
Qed.

Lemma JsMap_get_delete_eq k m : JsMap.get k (JsMap.delete k m) = None.
Proof.
  induction m as [|[k' v'] m IH]; [reflexivity|].
  rewrite JsMap_delete_cons. destruct (decide (k' = k)); [done|].
  simpl. by rewrite decide_False.
Qed.

Lemma JsMap_get_delete_ne k k' m :
  k ≠ k' → JsMap.get k' (JsMap.delete k m) = JsMap.get k' m.
Proof.
  intros Hne. induction m as [|[k0 v0] m IH]; [reflexivity|].
  rewrite JsMap_delete_cons. destruct (decide (k0 = k)) as [->|]; simpl.
  - by rewrite decide_False.
  - by rewrite IH.
Qed.

Lemma JsMap_set_absent k v m :
  JsMap.get k m = None → JsMap.set k v m = m ++ [(k, v)].
Proof.
  induction m as [|[k' v'] m IH]; [reflexivity|]. simpl.
  destruct (decide (k' = k)); [discriminate|]. intros Hm. by rewrite IH.
Qed.

Lemma JsMap_get_elem_of k v m : JsMap.get k m = Some v → ((k, v) : string * V) ∈ m.
Proof.
  induction m as [|[k' v'] m IH]; [discriminate|]. simpl.
  destruct (decide (k' = k)) as [->|].
  - intros [= ->]. left.
  - intros Hm. right. auto.
Qed.

Lemma JsMap_get_values k v m : JsMap.get k m = Some v → v ∈ JsMap.values m.
Proof.
  intros Hget. apply JsMap_get_elem_of in Hget.
  unfold JsMap.values. apply list_elem_of_fmap. by exists (k, v).
Qed.

Lemma JsMap_keys_set k v m :
  JsMap.keys (JsMap.set k v m) =
  if decide (k ∈ JsMap.keys m) then JsMap.keys m else JsMap.keys m ++ [k].
Proof.
  unfold JsMap.keys. induction m as [|[k' v'] m IH]; [reflexivity|]. 
  cbn [JsMap.set]. 
  destruct (decide (k' = k)) as [->|Hne].
  - rewrite !fmap_cons. cbn [fst]. rewrite decide_True by left. reflexivity.
  - rewrite !fmap_cons. cbn [fst]. rewrite IH. destruct (decide (k ∈ m.*1)) as [Hin|Hnin].
    + rewrite decide_True by (by right). reflexivity.
    + rewrite decide_False; [reflexivity|].
      rewrite elem_of_cons. intros [?|?]; congruence.
Qed.

Lemma JsMap_keys_delete k m :
  JsMap.keys (JsMap.delete k m) = filter (λ k', k' ≠ k) (JsMap.keys m).
Proof.
  unfold JsMap.keys. induction m as [|[k' v'] m IH]; [reflexivity|].
  rewrite JsMap_delete_cons, fmap_cons. cbn [fst]. rewrite filter_cons.
  destruct (decide (k' = k)) as [Heq|Hne].
  - rewrite decide_False; [exact IH|]. intros Hne. by apply Hne.
  - rewrite decide_True by done. rewrite fmap_cons. cbn [fst]. by rewrite IH.
Qed.

Lemma JsMap_NoDup_set k v m :
  NoDup (JsMap.keys m) → NoDup (JsMap.keys (JsMap.set k v m)).
Proof.
  intros Hm. rewrite JsMap_keys_set. destruct (decide (k ∈ JsMap.keys m)); [done|].
  apply NoDup_app. repeat split; [done| |apply NoDup_singleton].
  intros x Hx Hk. apply list_elem_of_singleton in Hk. congruence.
Qed.

Lemma JsMap_NoDup_delete k m :
  NoDup (JsMap.keys m) → NoDup (JsMap.keys (JsMap.delete k m)).
Proof. intros Hm. rewrite JsMap_keys_delete. by apply NoDup_filter. Qed.

Lemma JsMap_delete_absent k m : k ∉ JsMap.keys m → JsMap.delete k m = m.
Proof.
  unfold JsMap.keys. induction m as [|[k0 v0] m IH]; [reflexivity|].
  rewrite JsMap_delete_cons, fmap_cons, not_elem_of_cons. cbn [fst].
  intros [? ?]. rewrite decide_False by congruence. f_equal. by apply IH.
Qed.

(** With unique keys, [delete] followed by [set] only moves the entry to the
    end of the iteration order. *)
Lemma JsMap_delete_set_Permutation k v m :
  NoDup (JsMap.keys m) → JsMap.get k m = Some v →
  JsMap.set k v (JsMap.delete k m) ≡ₚ m.
Proof.
  intros Hm Hget.
  rewrite JsMap_set_absent by apply JsMap_get_delete_eq.
  induction m as [|[k' v'] m IH]; [discriminate|].
  rewrite JsMap_delete_cons. cbn [JsMap.get] in Hget.
  unfold JsMap.keys in Hm. rewrite fmap_cons in Hm. cbn [fst] in Hm.
  apply NoDup_cons in Hm as [Hk' Hm].
  destruct (decide (k' = k)) as [->|Hne].
  - injection Hget as ->. rewrite JsMap_delete_absent by exact Hk'.
    symmetry. apply Permutation_cons_append.
  - cbn [app]. constructor. by apply IH.
Qed.
End JsMapFacts.

(** ** Forgetting, restoring and renaming a server *)

Section Lifecycle.
Context {runtime : Runtime}.
Import PersistentServerRepository.

Lemma forget_tracked id server r :
  getById id r = Some server →
  forget id r =
  (Ok (),
   {| serverById := JsMap.delete id (serverById r);
      lastForgottenServer := Some server;
      eventQueue := eventQueue r ++ [ServerForgotten server];
      storage :=
        <[SERVERS_STORAGE_KEY :=
            JSON_stringify
              (JObj (configById_of (JsMap.values (JsMap.delete id (serverById r)))))]>
          (storage r) |}).
Proof. intros Hget. unfold forget. by rewrite Hget. Qed.

Lemma undoForget_buffered server r :
  lastForgottenServer r = Some server →
  undoForget (Server.id server) r =
  (Ok (),
   {| serverById := JsMap.set (Server.id server) server (serverById r);
      lastForgottenServer := None;
      eventQueue := eventQueue r ++ [ServerForgetUndone server];
      storage :=
        <[SERVERS_STORAGE_KEY :=
            JSON_stringify
              (JObj (configById_of
                       (JsMap.values (JsMap.set (Server.id server) server (serverById r)))))]>
          (storage r) |}).
Proof.
  intros Hlast. unfold undoForget. rewrite Hlast.
  rewrite decide_False; [reflexivity|]. intros Hne. by apply Hne.
Qed.

(** C8: when the buffer is empty, or holds a server whose id is not the id
    that is passed, [undoForget] throws nothing and returns the repository
    as it was: same map, same storage, same buffer, same event queue. *)
Theorem undoForget_other_id (idX : string) (r : t) :
  (lastForgottenServer r = None ∨
   ∃ forgotten, lastForgottenServer r = Some forgotten ∧ Server.id forgotten ≠ idX) →
  undoForget idX r = (Ok (), r).
Proof.
  intros [Hnone|(forgotten & Hsome & Hne)]; unfold undoForget.
  - by rewrite Hnone.
  - rewrite Hsome. by rewrite decide_True.
Qed.

(** C4: for a server tracked under its own id, [forget] followed by
    [undoForget] throws nothing and puts the same server (same id, same
    configuration) back under the same id: every lookup gives what it gave
    before, the entry itself is now the last one in the iteration order, the
    storage holds the text of the resulting map under the current key, the
    queue gained [ServerForgotten] and [ServerForgetUndone] for that server
    and nothing else, and the buffer is empty. A second [undoForget] throws
    nothing and changes nothing. *)
Theorem forget_undoForget_round_trip (id : string) (server : Server.t) (r : t) :
  getById id r = Some server →
  Server.id server = id →
  let r1 := (forget id r).2 in
  let r2 := (undoForget id r1).2 in
  (forget id r).1 = Ok () ∧
  (undoForget id r1).1 = Ok () ∧
  getById id r1 = None ∧
  getById id r2 = Some server ∧
  (∀ k, getById k r2 = getById k r) ∧
  serverById r2 = JsMap.delete id (serverById r) ++ [(id, server)] ∧
  storage r2 =
    <[SERVERS_STORAGE_KEY := JSON_stringify (JObj (configById_of (getAll r2)))]>
      (storage r) ∧
  eventQueue r2 =
    eventQueue r ++ [ServerForgotten server; ServerForgetUndone server] ∧
  lastForgottenServer r2 = None ∧
  undoForget id r2 = (Ok (), r2).
Proof.
  intros Hget Hid r1 r2. subst r2 r1 id.
  rewrite (forget_tracked _ server r Hget). cbn [fst snd].
  rewrite !undoForget_buffered by reflexivity. cbn [fst snd].
  set (id := Server.id server) in *.
  unfold getById, getAll in *.
  cbn [serverById storage eventQueue lastForgottenServer].
  assert (∀ k, JsMap.get k (JsMap.set id server (JsMap.delete id (serverById r)))
               = JsMap.get k (serverById r)) as Hlookup.
  { intros k. destruct (decide (id = k)) as [<-|Hne].
    - rewrite JsMap_get_set_eq. symmetry. exact Hget.
    - rewrite JsMap_get_set_ne, JsMap_get_delete_ne by done. reflexivity. }
  repeat split.
  - apply JsMap_get_delete_eq.
  - rewrite Hlookup. exact Hget.
  - exact Hlookup.
  - apply JsMap_set_absent, JsMap_get_delete_eq.
  - by rewrite insert_insert_eq.
  - by rewrite <- app_assoc.
Qed.

(** C10: for a tracked server whose configuration has a proxy, [rename] sets
    the name of the configuration and the name of the proxy to the new name,
    keeps the id, the host, port, method and password of the proxy and the
    source, and the renamed server matches exactly the configurations that it
    matched before. *)
Theorem rename_keeps_identity (id newName : string) (server : Server.t)
    (p : ShadowsocksConfig.t) (r : t) :
  getById id r = Some server →
  proxy (OutlineServer.config server) = Some p →
  ∃ server' p',
    (rename id newName r).1 = Ok () ∧
    getById id (rename id newName r).2 = Some server' ∧
    Server.id server' = Server.id server ∧
    ServerConfig.name (OutlineServer.config server') = Some newName ∧
    proxy (OutlineServer.config server') = Some p' ∧
    ShadowsocksConfig.name p' = Some newName ∧
    host p' = host p ∧ port p' = port p ∧
    method p' = method p ∧ password p' = password p ∧
    source (OutlineServer.config server') = source (OutlineServer.config server) ∧
    ∀ other,
      configsMatch (OutlineServer.config server') other
      = configsMatch (OutlineServer.config server) other ∧
      configsMatch other (OutlineServer.config server')
      = configsMatch other (OutlineServer.config server).
Proof.
  intros Hget Hproxy.
  exists (OutlineServer.set_name newName server), (OutlineServer.rename_proxy newName p).
  unfold rename. rewrite Hget. cbn [fst snd].
  unfold getById, emit, storeServers, set_eventQueue, set_storage, set_serverById.
  cbn [serverById]. rewrite JsMap_get_set_eq.
  assert (proxy (OutlineServer.config (OutlineServer.set_name newName server))
          = Some (OutlineServer.rename_proxy newName p)) as Hproxy'.
  { unfold OutlineServer.set_name, OutlineServer.set_config, OutlineServer.config.
    cbn. unfold OutlineServer.config in Hproxy. by rewrite Hproxy. }
  assert (∀ other,
            configsMatch (OutlineServer.config (OutlineServer.set_name newName server)) other
            = configsMatch (OutlineServer.config server) other) as Hmatch.
  { intros other. unfold configsMatch. rewrite Hproxy', Hproxy. reflexivity. }
  repeat split; try reflexivity; try exact Hproxy'.
  - apply Hmatch.
  - rewrite !(configsMatch_sym other). apply Hmatch.
Qed.
End Lifecycle.

(** [undoForget("s1")] while the buffer holds the server [s3]. *)
Lemma undoForget_other_id_witness :
  PersistentServerRepository.undoForget (runtime := ReferenceJSON.runtime)
    "s1" Example.after_forget
  = (Ok (), Example.after_forget).
Proof.
  apply undoForget_other_id. right.
  exists (Example.server_of "s3" Example.rc4_config).
  split; [reflexivity | discriminate].
Defined.

(** [forget("s1")] and [undoForget("s1")] on the repository of two servers:
    [s1] comes back behind [s2]. *)
Lemma forget_undoForget_round_trip_witness :
  let r2 :=
    (PersistentServerRepository.undoForget (runtime := ReferenceJSON.runtime) "s1"
       (PersistentServerRepository.forget (runtime := ReferenceJSON.runtime) "s1"
          Example.two_servers).2).2 in
  PersistentServerRepository.getById "s1" r2
    = Some (Example.server_of "s1" Example.static_config) ∧
  PersistentServerRepository.serverById r2
    = [("s2", Example.server_of "s2" Example.dynamic_config);
       ("s1", Example.server_of "s1" Example.static_config)] ∧
  PersistentServerRepository.undoForget (runtime := ReferenceJSON.runtime) "s1" r2
    = (Ok (), r2).
Proof.
  destruct (forget_undoForget_round_trip (runtime := ReferenceJSON.runtime)
              "s1" (Example.server_of "s1" Example.static_config)
              Example.two_servers eq_refl eq_refl)
    as (_ & _ & _ & Hback & _ & Hmap & _ & _ & _ & Hagain).
  split; [exact Hback|]. split; [exact Hmap | exact Hagain].
Defined.

(** [rename("s1", "Home")] on the repository of two servers. *)
Lemma rename_keeps_identity_witness :
  ∃ server',
    PersistentServerRepository.getById "s1"
      (PersistentServerRepository.rename (runtime := ReferenceJSON.runtime)
         "s1" "Home" Example.two_servers).2 = Some server' ∧
    ServerConfig.name (OutlineServer.config server') = Some "Home" ∧
    ∀ other,
      configsMatch (OutlineServer.config server') other
      = configsMatch Example.static_config other.
Proof.
  destruct (rename_keeps_identity (runtime := ReferenceJSON.runtime)
              "s1" "Home" (Example.server_of "s1" Example.static_config)
              Example.static_proxy Example.two_servers eq_refl eq_refl)
    as (server' & p' & _ & Hget & _ & Hname & _ & _ & _ & _ & _ & _ & _ & Hmatch).
  exists server'. split; [exact Hget|]. split; [exact Hname|].
  intros other. apply Hmatch.
Defined.

(** ** Migrating and loading the storage *)

Section Storage.
Context {runtime : Runtime} {laws : RuntimeLaws runtime}.
Context {factory : PersistentServerFactory}.
Import PersistentServerRepository.

Lemma JSON_parse_nonempty text v : JSON_parse text = inr v → text ≠ "".
Proof.
  intros Hparse ->. destruct JSON_parse_empty as [message Hempty]. congruence.
Qed.

(** Once the current key holds a text, migration does nothing. *)
Lemma migrateStorageV1_migrated (st : gmap string string) :
  truthy (st !! SERVERS_STORAGE_KEY) = true → migrateStorageV1 st = (Ok (), st).
Proof. intros Hcurrent. unfold migrateStorageV1. by rewrite Hcurrent. Qed.

Lemma truthy_stringify_object props (st : gmap string string) :
  truthy (<[SERVERS_STORAGE_KEY := JSON_stringify (JObj props)]> st
            !! SERVERS_STORAGE_KEY) = true.
Proof.
  rewrite lookup_insert_eq. unfold truthy.
  rewrite bool_decide_eq_false_2; [reflexivity|]. apply JSON_stringify_object.
Qed.

Lemma new_storage queue (st : gmap string string) : (new queue st).2 = (migrateStorageV1 st).2.
Proof.
  unfold new. destruct (migrateStorageV1 st) as [[u|e] st1]; [|reflexivity].
  by destruct (loadServers st1).
Qed.

(** C5: with no record under the current key and a legacy record that maps
    one id to a proxy object with an embedded name, migration, and so the
    constructor, writes under the current key the text of the record that
    maps the id to [{proxy, name}], the name being the one of the proxy, and
    changes nothing else. Migrating again does nothing, also after the legacy
    record was replaced by another text. *)
Theorem migration_of_legacy_record (queue : list OutlineEvent)
    (st : gmap string string) (legacy id : string)
    (props : list (string * json)) (name : json) :
  st !! SERVERS_STORAGE_KEY = None →
  st !! SERVERS_STORAGE_KEY_V0 = Some legacy →
  JSON_parse legacy = inr (JObj [(id, JObj props)]) →
  JsObject.get "name" props = Some name →
  let migrated :=
    JSON_stringify (JObj [(id, JObj [("proxy", JObj props); ("name", name)])]) in
  let st' := <[SERVERS_STORAGE_KEY := migrated]> st in
  migrateStorageV1 st = (Ok (), st') ∧
  (new queue st).2 = st' ∧
  migrateStorageV1 st' = (Ok (), st') ∧
  (∀ later,
     migrateStorageV1 (<[SERVERS_STORAGE_KEY_V0 := later]> st')
     = (Ok (), <[SERVERS_STORAGE_KEY_V0 := later]> st')).
Proof.
  intros Hcurrent Hlegacy Hparse Hname migrated st'.
  assert (migrateStorageV1 st = (Ok (), st')) as Hmigrate.
  { unfold migrateStorageV1. rewrite Hcurrent, Hlegacy. cbn [truthy].
    rewrite decide_False by exact (JSON_parse_nonempty _ _ Hparse).
    rewrite Hparse. cbn. rewrite Hname. reflexivity. }
  split; [exact Hmigrate|]. split; [|split].
  - rewrite new_storage, Hmigrate. reflexivity.
  - apply migrateStorageV1_migrated, truthy_stringify_object.
  - intros later. apply migrateStorageV1_migrated.
    rewrite lookup_insert_ne by discriminate. apply truthy_stringify_object.
Qed.

(** C6: when the text under the current key parses to a record of two
    entries, one for which the factory throws and one for which it returns a
    server, in either order, the constructor throws nothing and the map of
    the repository holds exactly the entry of the server that was built,
    flagged if its cipher is unsupported; storage and queue are untouched. *)
Theorem load_skips_failing_entry (queue : list OutlineEvent)
    (st : gmap string string) (text idBad idGood : string) (bad good : json)
    (e : Error) (server : Server.t) :
  st !! SERVERS_STORAGE_KEY = Some text →
  JSON_parse text = inr (JObj [(idBad, bad); (idGood, good)]) ∨
  JSON_parse text = inr (JObj [(idGood, good); (idBad, bad)]) →
  createServer idBad bad = Throw e →
  createServer idGood good = Ok server →
  new queue st =
  (Ok {| serverById := [(idGood, flag_unsupported server)];
         lastForgottenServer := None;
         eventQueue := queue;
         storage := st |}, st).
Proof.
  intros Hcurrent Hparse Hbad Hgood.
  assert (text ≠ "") as Htext by (destruct Hparse; eauto using JSON_parse_nonempty).
  unfold new. rewrite migrateStorageV1_migrated.
  - unfold loadServers. rewrite Hcurrent, decide_False by exact Htext.
    destruct Hparse as [-> | ->]; cbn; unfold load_entry; cbn;
      rewrite ?Hbad, ?Hgood; cbn; rewrite ?Hbad; reflexivity.
  - rewrite Hcurrent. cbn. by rewrite bool_decide_eq_false_2.
Qed.
End Storage.

#[export] Instance ReferenceJSON_laws : RuntimeLaws ReferenceJSON.runtime.
Proof.
  split.
  - eexists. reflexivity.
  - intros props. discriminate.
Qed.

(** The migration of the legacy record of the specification. *)
Lemma migration_of_legacy_record_witness :
  let migrated :=
    ReferenceJSON.stringify
      (JObj [("s1", JObj [("proxy", Example.legacy_proxy); ("name", JStr "N")])]) in
  let st' :=
    <[PersistentServerRepository.SERVERS_STORAGE_KEY := migrated]>
      Example.legacy_storage in
  PersistentServerRepository.migrateStorageV1 (runtime := ReferenceJSON.runtime)
    Example.legacy_storage = (Ok (), st') ∧
  (PersistentServerRepository.new (runtime := ReferenceJSON.runtime)
     (factory := Example.factory) [] Example.legacy_storage).2 = st' ∧
  PersistentServerRepository.migrateStorageV1 (runtime := ReferenceJSON.runtime) st'
    = (Ok (), st').
Proof.
  destruct (migration_of_legacy_record (runtime := ReferenceJSON.runtime)
              (factory := Example.factory) [] Example.legacy_storage
              (ReferenceJSON.stringify (JObj [("s1", Example.legacy_proxy)])) "s1"
              [("host", JStr "h"); ("port", JNum 1); ("password", JStr "p");
               ("method", JStr "aes-128-gcm"); ("name", JStr "N")]
              (JStr "N"))
    as (Hmigrate & Hnew & Hagain & _).
  - reflexivity.
  - reflexivity.
  - vm_compute. reflexivity.
  - reflexivity.
  - split; [exact Hmigrate|]. split; [exact Hnew | exact Hagain].
Defined.

(** The constructor on a current record with the entries [bad] and [good]. *)
Lemma load_skips_failing_entry_witness :
  PersistentServerRepository.new (runtime := ReferenceJSON.runtime)
    (factory := Example.factory) [] Example.damaged_storage
  = (Ok {| PersistentServerRepository.serverById :=
             [("good", PersistentServerRepository.flag_unsupported
                         (Example.server_of "good" Example.static_config))];
           PersistentServerRepository.lastForgottenServer := None;
           PersistentServerRepository.eventQueue := [];
           PersistentServerRepository.storage := Example.damaged_storage |},
     Example.damaged_storage).
Proof.
  apply (load_skips_failing_entry (runtime := ReferenceJSON.runtime)
           (factory := Example.factory) [] Example.damaged_storage
           (ReferenceJSON.stringify
              (JObj [("bad", JNull); ("good", json_of_config Example.static_config)]))
           "bad" "good" JNull (json_of_config Example.static_config)
           IllegalServerConfiguration).
  - reflexivity.
  - left. vm_compute. reflexivity.
  - reflexivity.
  - reflexivity.
Defined.

(** ** Connecting *)

Lemma set_proxy_source v tn :
  source (Tunnel.config (Tunnel.set_proxy v tn)) = source (Tunnel.config tn).
Proof. reflexivity. Qed.

Lemma set_proxy_proxy v tn : proxy (Tunnel.config (Tunnel.set_proxy v tn)) = v.
Proof. reflexivity. Qed.

Section Connect.
Context {errors : ErrorTable} {tunnels : TunnelClass} {keeps : KeepsSource tunnels}.

Lemma connect_attempt_source tn :
  is_Some (source (Tunnel.config tn)) →
  is_Some (source (Tunnel.config (OutlineServer.connect_attempt tn).2)).
Proof.
  intros Hsource. unfold OutlineServer.connect_attempt.
  destruct (source (Tunnel.config tn)) as [src|] eqn:Hsrc; [|by destruct Hsource].
  pose proof (fetchProxyConfig_source tn) as Hfetch. rewrite Hsrc in Hfetch.
  specialize (Hfetch Hsource).
  destruct (fetchProxyConfig tn) as [[[proxies|]|e] tn1]; cbn [snd] in *; try done.
  apply start_source. by rewrite set_proxy_source.
Qed.

(** What [connect] does when its [try] block throws the error [e] and leaves
    the tunnel [tn] with a source. *)
Lemma connect_catch server e tn :
  OutlineServer.connect_attempt (Server.tunnel server) = (Throw e, tn) →
  is_Some (source (Tunnel.config tn)) →
  OutlineServer.connect server =
  (Throw (OutlineServer.rethrown e),
   Server.set_tunnel (Tunnel.set_proxy None tn) server).
Proof.
  intros Hattempt [src Hsrc]. unfold OutlineServer.connect.
  by rewrite Hattempt, Hsrc.
Qed.

(** C7: for a server whose configuration has a source, on a tunnel that
    leaves the source in place: whenever [connect] throws, the configuration
    has no proxy afterwards. [connect] does throw when the fetch throws, when
    the fetch returns nothing, and when the fetch returns candidates and the
    start throws; what it throws is the error of the tunnel, translated
    through the table if it carries a non-zero error code. *)
Theorem connect_failure_discards_proxy (server : Server.t) :
  is_Some (source (OutlineServer.config server)) →
  (∀ e server',
     OutlineServer.connect server = (Throw e, server') →
     proxy (OutlineServer.config server') = None) ∧
  (∀ e tn,
     fetchProxyConfig (Server.tunnel server) = (Throw e, tn) →
     ∃ server',
       OutlineServer.connect server = (Throw (OutlineServer.rethrown e), server') ∧
       proxy (OutlineServer.config server') = None) ∧
  (∀ tn,
     fetchProxyConfig (Server.tunnel server) = (Ok None, tn) →
     ∃ server',
       OutlineServer.connect server = (Throw TypeError, server') ∧
       proxy (OutlineServer.config server') = None) ∧
  (∀ proxies tn e tn',
     fetchProxyConfig (Server.tunnel server) = (Ok (Some proxies), tn) →
     start (Tunnel.set_proxy (head proxies) tn) = (Throw e, tn') →
     ∃ server',
       OutlineServer.connect server = (Throw (OutlineServer.rethrown e), server') ∧
       proxy (OutlineServer.config server') = None).
Proof.
  intros Hsource. unfold OutlineServer.config in Hsource.
  pose proof (connect_attempt_source _ Hsource) as Hafter.
  assert (∀ e tn,
            OutlineServer.connect_attempt (Server.tunnel server) = (Throw e, tn) →
            ∃ server',
              OutlineServer.connect server
              = (Throw (OutlineServer.rethrown e), server') ∧
              proxy (OutlineServer.config server') = None) as Hcatch.
  { intros e tn Hattempt. rewrite Hattempt in Hafter.
    eexists. split; [by apply connect_catch | reflexivity]. }
  destruct Hsource as [src Hsrc].
  split; [|split; [|split]].
  - intros e server' Hconnect.
    destruct (OutlineServer.connect_attempt (Server.tunnel server))
      as [[u|e0] tn] eqn:Hattempt.
    + unfold OutlineServer.connect in Hconnect. rewrite Hattempt in Hconnect.
      discriminate.
    + destruct (Hcatch e0 tn eq_refl) as (server'' & Hconnect' & Hproxy).
      rewrite Hconnect in Hconnect'. by simplify_eq.
  - intros e tn Hfetch. apply (Hcatch e tn).
    unfold OutlineServer.connect_attempt. by rewrite Hsrc, Hfetch.
  - intros tn Hfetch. apply (Hcatch TypeError tn).
    unfold OutlineServer.connect_attempt. by rewrite Hsrc, Hfetch.
  - intros proxies tn e tn' Hfetch Hstart. apply (Hcatch e tn').
    unfold OutlineServer.connect_attempt. by rewrite Hsrc, Hfetch.
Qed.
End Connect.

(** Both tunnel implementations leave the source in place. *)
#[export] Instance FakeOutlineTunnel_keeps_source {errors : ErrorTable} :
  KeepsSource FakeOutlineTunnel.tunnel_class.
Proof.
  split; intros tn Hsource; cbn.
  - unfold FakeOutlineTunnel.fetchProxyConfig.
    destruct (source (Tunnel.config tn)) eqn:Hsrc; cbn; by rewrite Hsrc.
  - unfold FakeOutlineTunnel.start.
    destruct (Tunnel.running tn); [exact Hsource|].
    destruct (proxy (Tunnel.config tn)); [|exact Hsource].
    destruct (FakeOutlineTunnel.playUnreachable tn); [exact Hsource|].
    destruct (FakeOutlineTunnel.playBroken tn); exact Hsource.
Qed.

#[export] Instance ElectronOutlineTunnel_keeps_source
    {main : ElectronOutlineTunnel.MainProcess} :
  KeepsSource ElectronOutlineTunnel.tunnel_class.
Proof.
  split; intros tn Hsource; cbn.
  - unfold ElectronOutlineTunnel.fetchProxyConfig.
    destruct (source (Tunnel.config tn)) as [src|] eqn:Hsrc; [|cbn; by rewrite Hsrc].
    destruct (ElectronOutlineTunnel.fetch_proxy_config src) as [[proxies|]|e];
      cbn; by rewrite Hsrc.
  - unfold ElectronOutlineTunnel.start.
    destruct (Tunnel.running tn); [exact Hsource|].
    destruct (ElectronOutlineTunnel.start_proxying _ _); exact Hsource.
Qed.

(** [connect] of a dynamic server named [Broken server] over the fake
    tunnel: the fetch adopts a proxy, the start throws, the proxy is gone. *)
Lemma connect_failure_discards_proxy_witness :
  ∃ server',
    OutlineServer.connect (errors := Example.error_table)
      (tunnels := FakeOutlineTunnel.tunnel_class (errors := Example.error_table))
      (Example.server_of "s2" Example.dynamic_config)
    = (Throw (OutlinePluginError 8), server') ∧
    proxy (OutlineServer.config server') = None.
Proof.
  destruct (connect_failure_discards_proxy (errors := Example.error_table)
              (tunnels := FakeOutlineTunnel.tunnel_class (errors := Example.error_table))
              (Example.server_of "s2" Example.dynamic_config))
    as (_ & _ & _ & Hstart).
  - eexists. reflexivity.
  - exact (Hstart _ _ (OutlinePluginError 8) _ eq_refl eq_refl).
Defined.

(** ** The ids of the tracked servers *)

Lemma JsMap_elem_of_set {V : Type} (k k' : string) (v v' : V) (m : list (string * V)) :
  (k', v') ∈ JsMap.set k v m → (k', v') = (k, v) ∨ (k', v') ∈ m.
Proof.
  induction m as [|[k0 v0] m IH]; cbn [JsMap.set].
  - rewrite list_elem_of_singleton. auto.
  - destruct (decide (k0 = k)) as [->|Hne]; rewrite !elem_of_cons.
    + intros [?|?]; auto.
    + intros [?|?]; [auto|]. destruct IH; auto.
Qed.

Lemma JsMap_elem_of_delete {V : Type} (k : string) (e : string * V) (m : list (string * V)) :
  e ∈ JsMap.delete k m → e ∈ m.
Proof. unfold JsMap.delete. rewrite list_elem_of_filter. tauto. Qed.

Section Ids.
Context {runtime : Runtime} {factory : PersistentServerFactory}.
Context {honours : HonoursId factory}.
Import PersistentServerRepository.

Lemma keyed_by_id_set k server r :
  keyed_by_id r → Server.id server = k →
  keyed_by_id (set_serverById (JsMap.set k server (serverById r)) r).
Proof.
  intros [Hkeys Hids] Hid. split; cbn [set_serverById serverById].
  - by apply JsMap_NoDup_set.
  - intros k' server' Hin. apply JsMap_elem_of_set in Hin as [Heq|Hin].
    + by simplify_eq.
    + by apply Hids.
Qed.

Lemma keyed_by_id_get k server r :
  keyed_by_id r → getById k r = Some server → Server.id server = k.
Proof. intros [_ Hids] Hget. by apply Hids, JsMap_get_elem_of. Qed.

(** The map, and so [keyed_by_id], does not see the other fields. *)
Lemma keyed_by_id_same_map r r' :
  serverById r' = serverById r → keyed_by_id r → keyed_by_id r'.
Proof. unfold keyed_by_id. by intros ->. Qed.

Lemma load_entries_keyed entries servers :
  NoDup (JsMap.keys servers) →
  (∀ k server, (k, server) ∈ servers → Server.id server = k) →
  NoDup (JsMap.keys (foldl load_entry servers entries)) ∧
  ∀ k server, (k, server) ∈ foldl load_entry servers entries → Server.id server = k.
Proof.
  revert servers. induction entries as [|[k config] entries IH];
    intros servers Hkeys Hids; [done|].
  cbn [foldl]. apply IH; unfold load_entry; cbn [fst snd];
    destruct (createServer k config) as [server|e] eqn:Hcreate; try done.
  - by apply JsMap_NoDup_set.
  - intros k' server' Hin. apply JsMap_elem_of_set in Hin as [Heq|Hin]; [|by apply Hids].
    simplify_eq. unfold flag_unsupported.
    destruct (isServerCipherSupported _); cbn; by apply honours in Hcreate.
Qed.

Lemma new_keyed queue st r st' : new queue st = (Ok r, st') → keyed_by_id r.
Proof.
  unfold new. destruct (migrateStorageV1 st) as [[u|e] st1]; [|discriminate].
  destruct (loadServers st1) as [servers|e] eqn:Hload; [|discriminate].
  intros [= <- _]. unfold keyed_by_id. cbn [serverById].
  unfold loadServers in Hload.
  assert (NoDup (JsMap.keys (@nil (string * Server.t)))) as Hnil by constructor.
  assert (∀ k server, (k, server) ∈ @nil (string * Server.t) → Server.id server = k)
    as Hnone by (intros k server Hin; inversion Hin).
  destruct (st1 !! SERVERS_STORAGE_KEY) as [text|]; [|by simplify_eq].
  destruct (decide (text = "")); [by simplify_eq|].
  destruct (JSON_parse text) as [message|configById]; [discriminate|].
  injection Hload as <-. by apply load_entries_keyed.
Qed.

(** Every reachable repository files each server under the id of the
    server, so [forget] followed by [undoForget] applies to every id that a
    reachable repository tracks. *)
Lemma reachable_keyed_by_id r : reachable r → keyed_by_id r.
Proof.
  induction 1 as [queue st r st' Hnew | uuid config r _ IH | id config r _ IH
                 | id newName r _ IH | id r _ IH | id r _ IH
                 | id server tn r _ IH Hget].
  - by eapply new_keyed.
  - unfold add. destruct (serverFromConfig config r); [done|].
    destruct (negb (isServerCipherSupported config)); [done|].
    destruct (createServer uuid (json_of_config config)) as [server|e]; [|done].
    cbn [snd].
    apply (keyed_by_id_same_map
             (set_serverById (JsMap.set (Server.id server) server (serverById r)) r));
      [reflexivity|]. by apply keyed_by_id_set.
  - unfold update. destruct (getById id r) as [server|] eqn:Hget; [|done].
    destruct (decide _); [done|]. cbn [snd].
    set (server' := OutlineServer.set_config _ server).
    apply (keyed_by_id_same_map
             (set_serverById (JsMap.set id server' (serverById r)) r));
      [reflexivity|]. apply keyed_by_id_set; [done|].
    exact (keyed_by_id_get id server r IH Hget).
  - unfold rename. destruct (getById id r) as [server|] eqn:Hget; [|done].
    cbn [snd].
    apply (keyed_by_id_same_map
             (set_serverById
                (JsMap.set id (OutlineServer.set_name newName server) (serverById r)) r));
      [reflexivity|]. apply keyed_by_id_set; [done|].
    exact (keyed_by_id_get id server r IH Hget).
  - unfold forget. destruct (getById id r) as [server|] eqn:Hget; [|done].
    cbn [snd]. destruct IH as [Hkeys Hids]. split; cbn.
    + by apply JsMap_NoDup_delete.
    + intros k server' Hin. by apply Hids, (JsMap_elem_of_delete id).
  - unfold undoForget. destruct (lastForgottenServer r) as [server|]; [|done].
    destruct (decide _); [done|]. cbn [snd].
    apply (keyed_by_id_same_map
             (set_serverById (JsMap.set (Server.id server) server (serverById r)) r));
      [reflexivity|]. by apply keyed_by_id_set.
  - apply keyed_by_id_set; [done|]. exact (keyed_by_id_get id server r IH Hget).
Qed.

Lemma reachable_tracked_id r id server :
  reachable r → getById id r = Some server → Server.id server = id.
Proof. intros Hr. apply keyed_by_id_get. by apply reachable_keyed_by_id. Qed.
End Ids.

#[export] Instance Example_factory_honours_id : HonoursId Example.factory.
Proof.
  intros id config server. unfold createServer, Example.factory.
  destruct (Example.config_of_json config) as [c|]; [|discriminate].
  destruct (_ || _); [|discriminate]. by intros [= <-].
Qed.

(** In a repository that files each server under its id, the servers that
    [getAll] lists after [forget] and [undoForget] are the ones it listed
    before, in another order. *)
Lemma forget_undoForget_getAll {runtime : Runtime} id server r :
  keyed_by_id r →
  PersistentServerRepository.getById id r = Some server →
  PersistentServerRepository.getAll
    (PersistentServerRepository.undoForget id
       (PersistentServerRepository.forget id r).2).2
  ≡ₚ PersistentServerRepository.getAll r.
Proof.
  intros [Hkeys Hids] Hget.
  assert (Server.id server = id) as Hid by (by apply Hids, JsMap_get_elem_of).
  subst id. rewrite (forget_tracked _ server r Hget). cbn [snd].
  rewrite undoForget_buffered by reflexivity. cbn [snd].
  unfold PersistentServerRepository.getAll, JsMap.values.
  cbn [PersistentServerRepository.serverById].
  apply fmap_Permutation. by apply JsMap_delete_set_Permutation.
Qed.

(** * Further properties *)

(** ** Plain objects *)

Section JsObjectFacts.
Context {V : Type}.
Implicit Types (o : list (string * V)) (k : string) (v : V).

Lemma JsObject_create_Permutation k v o : JsObject.create k v o ≡ₚ (k, v) :: o.
Proof.
  induction o as [|[k' v'] o IH]; [reflexivity|]. cbn [JsObject.create].
  destruct (JsObject.array_index k) as [n|], (JsObject.array_index k') as [n'|];
    try reflexivity.
  - destruct (n <? n')%N; [reflexivity|]. rewrite IH. apply perm_swap.
  - rewrite IH. apply perm_swap.
  - rewrite IH. apply perm_swap.
Qed.

Lemma JsObject_get_create k k' v o :
  JsMap.get k o = None →
  JsMap.get k' (JsObject.create k v o) =
  if decide (k = k') then Some v else JsMap.get k' o.
Proof.
  induction o as [|[k0 v0] o IH]; intros Hfresh.
  - cbn. by destruct (decide (k = k')).
  - cbn [JsMap.get] in Hfresh.
    destruct (decide (k0 = k)) as [|Hne]; [discriminate|].
    assert (JsMap.get k' ((k, v) :: (k0, v0) :: o) =
            if decide (k = k') then Some v else JsMap.get k' ((k0, v0) :: o)) as Hhead
      by reflexivity.
    assert (JsMap.get k' ((k0, v0) :: JsObject.create k v o) =
            if decide (k = k') then Some v else JsMap.get k' ((k0, v0) :: o)) as Htail.
    { cbn [JsMap.get]. rewrite (IH Hfresh).
      destruct (decide (k0 = k')) as [->|]; [|reflexivity].
      by rewrite decide_False by congruence. }
    cbn [JsObject.create].
    destruct (JsObject.array_index k) as [n|], (JsObject.array_index k0) as [n0|];
      try assumption.
    by destruct (n <? n0)%N.
Qed.

Lemma JsObject_get_set k k' v o :
  JsMap.get k' (JsObject.set k v o) =
  if decide (k = k') then Some v else JsMap.get k' o.
Proof.
  unfold JsObject.set. destruct (JsMap.get k o) as [old|] eqn:Hget.
  - destruct (decide (k = k')) as [<-|Hne].
    + apply JsMap_get_set_eq.
    + by apply JsMap_get_set_ne.
  - by apply JsObject_get_create.
Qed.

Lemma JsMap_get_None_keys k o : JsMap.get k o = None ↔ k ∉ JsMap.keys o.
Proof.
  unfold JsMap.keys. induction o as [|[k0 v0] o IH]; cbn [JsMap.get].
  - split; [intros _ Hin; inversion Hin | done].
  - rewrite fmap_cons, not_elem_of_cons. cbn [fst].
    destruct (decide (k0 = k)) as [->|Hne].
    + split; [discriminate | intros [? _]; congruence].
    + rewrite IH. split; [intros ?; split; congruence | tauto].
Qed.

Lemma JsObject_keys_set k v o :
  JsMap.keys (JsObject.set k v o) ≡ₚ
  if decide (k ∈ JsMap.keys o) then JsMap.keys o else k :: JsMap.keys o.
Proof.
  unfold JsObject.set. destruct (JsMap.get k o) as [old|] eqn:Hget.
  - assert (k ∈ JsMap.keys o) as Hin.
    { destruct (decide (k ∈ JsMap.keys o)) as [|Hnin]; [done|].
      apply JsMap_get_None_keys in Hnin. congruence. }
    rewrite JsMap_keys_set, !decide_True by done. reflexivity.
  - rewrite decide_False by (by apply JsMap_get_None_keys).
    unfold JsMap.keys. rewrite JsObject_create_Permutation. reflexivity.
Qed.

Lemma JsObject_NoDup_set k v o :
  NoDup (JsMap.keys o) → NoDup (JsMap.keys (JsObject.set k v o)).
Proof.
  intros Ho. rewrite JsObject_keys_set.
  destruct (decide (k ∈ JsMap.keys o)); [done|]. by apply NoDup_cons.
Qed.

Lemma JsMap_get_app k o1 o2 :
  JsMap.get k (o1 ++ o2) =
  match JsMap.get k o1 with
  | Some v => Some v
  | None => JsMap.get k o2
  end.
Proof.
  induction o1 as [|[k0 v0] o1 IH]; [reflexivity|]. cbn.
  by destruct (decide (k0 = k)).
Qed.

Lemma JsMap_get_elem_of_NoDup k v o :
  NoDup (JsMap.keys o) → ((k, v) : string * V) ∈ o → JsMap.get k o = Some v.
Proof.
  unfold JsMap.keys. induction o as [|[k0 v0] o IH]; intros Ho Hin; [inversion Hin|].
  rewrite fmap_cons in Ho. cbn [fst] in Ho. apply NoDup_cons in Ho as [Hk0 Ho].
  cbn [JsMap.get]. apply elem_of_cons in Hin as [Heq|Hin].
  - simplify_eq. by rewrite decide_True.
  - destruct (decide (k0 = k)) as [->|]; [|by apply IH].
    destruct Hk0. apply list_elem_of_fmap. by exists (k, v).
Qed.
End JsObjectFacts.

(** ** The methods of the repository *)

Section Methods.
Context {runtime : Runtime} {factory : PersistentServerFactory}.
Import PersistentServerRepository.

Lemma persisted_after_store r1 r' :
  serverById r' = serverById r1 →
  storage r' = storage (storeServers r1) →
  persisted r'.
Proof.
  intros Hmap Hstorage. unfold persisted, getAll. rewrite Hmap, Hstorage.
  cbn. apply lookup_insert_eq.
Qed.

Lemma containsServer_true config r :
  containsServer config r = true ↔
  ∃ server, server ∈ getAll r ∧
            configsMatch (OutlineServer.config server) config = true.
Proof.
  unfold containsServer. rewrite bool_decide_eq_true. split.
  - intros [existing Hfind]. exists existing. by apply serverFromConfig_Some.
  - intros (server & Hin & Hmatch).
    destruct (serverFromConfig_tracked config r server Hin Hmatch) as [existing ->].
    by eexists.
Qed.

(** X1: [containsServer] answers true exactly when the configuration of
    some tracked server matches the given one, and false exactly when none
    does. *)
Theorem containsServer_iff (config : ServerConfig.t) (r : t) :
  (containsServer config r = true ↔
     ∃ server, server ∈ getAll r ∧
               configsMatch (OutlineServer.config server) config = true) ∧
  (containsServer config r = false ↔
     ∀ server, server ∈ getAll r →
               configsMatch (OutlineServer.config server) config = false).
Proof.
  split; [apply containsServer_true|].
  rewrite <- serverFromConfig_None. unfold containsServer.
  rewrite bool_decide_eq_false. destruct (serverFromConfig config r); split.
  - intros Hnot. destruct Hnot. by eexists.
  - discriminate.
  - reflexivity.
  - intros _ [? ?]. discriminate.
Qed.


(** X3: when no tracked server matches, the cipher is supported and the
    factory returns a server, [add] throws nothing, files the server under
    its id and leaves the other ids alone, puts the text of the new map in
    the storage, appends one [ServerAdded] for the server to the queue and
    keeps the buffer. If the id was not tracked, [getAll] lists the new
    server after the old ones; if the configuration of the server matches
    the one that was added, [containsServer] now answers true for it. *)
Theorem add_new_server (uuid : string) (config : ServerConfig.t)
    (server : Server.t) (r : t) :
  (∀ tracked, tracked ∈ getAll r →
              configsMatch (OutlineServer.config tracked) config = false) →
  isServerCipherSupported config = true →
  createServer uuid (json_of_config config) = Ok server →
  let r' := (add uuid config r).2 in
  (add uuid config r).1 = Ok () ∧
  getById (Server.id server) r' = Some server ∧
  (∀ k, k ≠ Server.id server → getById k r' = getById k r) ∧
  (getById (Server.id server) r = None → getAll r' = getAll r ++ [server]) ∧
  persisted r' ∧
  (∀ k, k ≠ SERVERS_STORAGE_KEY → storage r' !! k = storage r !! k) ∧
  eventQueue r' = eventQueue r ++ [ServerAdded server] ∧
  lastForgottenServer r' = lastForgottenServer r ∧
  (configsMatch (OutlineServer.config server) config = true →
   containsServer config r' = true).
Proof.
  intros Hnone Hsupported Hcreate r'. subst r'.
  apply serverFromConfig_None in Hnone.
  unfold add. rewrite Hnone, Hsupported, Hcreate. cbn [negb fst snd].
  set (r1 := set_serverById (JsMap.set (Server.id server) server (serverById r)) r).
  assert (getById (Server.id server) (emit (ServerAdded server) (storeServers r1))
          = Some server) as Hget by apply JsMap_get_set_eq.
  repeat split.
  - exact Hget.
  - intros k Hk. by apply JsMap_get_set_ne.
  - intros Hfresh. unfold getAll, JsMap.values. cbn [emit storeServers r1
      set_eventQueue set_storage set_serverById serverById].
    rewrite JsMap_set_absent by exact Hfresh. by rewrite fmap_app.
  - by apply (persisted_after_store r1).
  - intros k Hk. cbn. by rewrite lookup_insert_ne.
  - intros Hmatch. apply containsServer_true. exists server. split; [|exact Hmatch].
    by apply (JsMap_get_values (Server.id server)).
Qed.

(** X4: [update], [rename] and [forget] of an id that is not tracked throw
    nothing and change nothing. *)
Theorem unknown_id_is_ignored (id newName : string) (config : ServerConfig.t) (r : t) :
  getById id r = None →
  update id config r = (Ok (), r) ∧
  rename id newName r = (Ok (), r) ∧
  forget id r = (Ok (), r).
Proof. intros Hget. unfold update, rename, forget. by rewrite Hget. Qed.

Lemma JsMap_keys_set_tracked {V : Type} k (v old : V) (m : list (string * V)) :
  JsMap.get k m = Some old → JsMap.keys (JsMap.set k v m) = JsMap.keys m.
Proof.
  intros Hget. rewrite JsMap_keys_set, decide_True; [reflexivity|].
  destruct (decide (k ∈ JsMap.keys m)) as [|Hnin]; [done|].
  apply JsMap_get_None_keys in Hnin. congruence.
Qed.

(** X5: [update] of a tracked server with a configuration whose source URL
    differs from the one of the server puts the new source into the
    configuration of the server and keeps its proxy, its name and everything
    else of the server; the other entries and the order of the map are kept,
    the text of the map is stored, the buffer is kept and no event is
    enqueued. *)
Theorem update_replaces_source (id : string) (config : ServerConfig.t)
    (server : Server.t) (r : t) :
  getById id r = Some server →
  url <$> source config ≠ url <$> source (OutlineServer.config server) →
  let r' := (update id config r).2 in
  (update id config r).1 = Ok () ∧
  getById id r' =
    Some (OutlineServer.set_config
            (ServerConfig.set_source (source config) (OutlineServer.config server))
            server) ∧
  (∀ k, k ≠ id → getById k r' = getById k r) ∧
  JsMap.keys (serverById r') = JsMap.keys (serverById r) ∧
  persisted r' ∧
  eventQueue r' = eventQueue r ∧
  lastForgottenServer r' = lastForgottenServer r.
Proof.
  intros Hget Hurl r'. subst r'. unfold update. rewrite Hget.
  rewrite decide_False by exact Hurl. cbn [fst snd].
  set (server' := OutlineServer.set_config _ server).
  set (r1 := set_serverById (JsMap.set id server' (serverById r)) r).
  repeat split.
  - apply JsMap_get_set_eq.
  - intros k Hk. by apply JsMap_get_set_ne.
  - by apply (JsMap_keys_set_tracked id server' server).
  - by apply (persisted_after_store r1).
Qed.

(** X6: [update] with the source URL that the tracked server already has
    changes nothing, and a second [update] with the same arguments changes
    nothing whatever the first one did. *)
Theorem update_twice (id : string) (config : ServerConfig.t) (r : t) :
  (∀ server, getById id r = Some server →
     url <$> source config = url <$> source (OutlineServer.config server) →
     update id config r = (Ok (), r)) ∧
  update id config (update id config r).2 = (Ok (), (update id config r).2).
Proof.
  split.
  - intros server Hget Hurl. unfold update. rewrite Hget. by rewrite decide_True.
  - unfold update at 2 3. destruct (getById id r) as [server|] eqn:Hget.
    + destruct (decide (url <$> source config
                        = url <$> source (OutlineServer.config server))) as [Hurl|Hurl];
        cbn [snd]; unfold update.
      * rewrite Hget. by rewrite decide_True.
      * set (server' := OutlineServer.set_config _ server).
        assert (getById id
                  (storeServers
                     (set_serverById (JsMap.set id server' (serverById r)) r))
                = Some server') as -> by apply JsMap_get_set_eq.
        by rewrite decide_True.
    + cbn [snd]. unfold update. by rewrite Hget.
Qed.

(** X7: the buffer holds one server. After [forget] of two tracked servers,
    [undoForget] of the first changes nothing and the first stays out of the
    map, while [undoForget] of the second restores the second. *)
Theorem forget_overwrites_buffer (idA idB : string) (a b : Server.t) (r : t) :
  getById idA r = Some a → getById idB r = Some b →
  Server.id a = idA → Server.id b = idB → idA ≠ idB →
  let r2 := (forget idB (forget idA r).2).2 in
  lastForgottenServer r2 = Some b ∧
  getById idA r2 = None ∧ getById idB r2 = None ∧
  undoForget idA r2 = (Ok (), r2) ∧
  getById idB (undoForget idB r2).2 = Some b ∧
  getById idA (undoForget idB r2).2 = None ∧
  lastForgottenServer (undoForget idB r2).2 = None.
Proof.
  intros HgetA HgetB HidA HidB Hne r2. subst r2 idA idB.
  rewrite (forget_tracked _ a r HgetA). cbn [snd].
  rewrite (forget_tracked _ b); cbn [snd].
  2: { unfold getById in *. cbn [serverById].
       by rewrite JsMap_get_delete_ne. }
  split; [reflexivity|].
  assert (JsMap.get (Server.id a)
            (JsMap.delete (Server.id b) (JsMap.delete (Server.id a) (serverById r)))
          = None) as HnoA.
  { rewrite JsMap_get_delete_ne by done. apply JsMap_get_delete_eq. }
  split; [exact HnoA|]. split; [apply JsMap_get_delete_eq|].
  split.
  { unfold undoForget. cbn [lastForgottenServer]. by rewrite decide_True. }
  rewrite undoForget_buffered by reflexivity. cbn [snd].
  unfold getById. cbn [serverById lastForgottenServer].
  split; [apply JsMap_get_set_eq|]. split; [|reflexivity].
  by rewrite JsMap_get_set_ne.
Qed.

End Methods.


(** [add] of a static configuration to the empty repository. *)
Lemma add_new_server_witness :
  let added :=
    Example.server_of "3b241101-e2bb-4255-8caf-4136c566a962" Example.static_config in
  let r' :=
    (PersistentServerRepository.add (runtime := ReferenceJSON.runtime)
       (factory := Example.factory) "3b241101-e2bb-4255-8caf-4136c566a962"
       Example.static_config Example.empty_repository).2 in
  PersistentServerRepository.getAll r' = [added] ∧
  PersistentServerRepository.eventQueue r' = [ServerAdded added] ∧
  PersistentServerRepository.containsServer Example.static_config r' = true.
Proof.
  destruct (add_new_server (runtime := ReferenceJSON.runtime)
              (factory := Example.factory) "3b241101-e2bb-4255-8caf-4136c566a962"
              Example.static_config
              (Example.server_of "3b241101-e2bb-4255-8caf-4136c566a962"
                 Example.static_config)
              Example.empty_repository)
    as (_ & _ & _ & Hall & _ & _ & Hqueue & _ & Hcontains).
  - intros tracked Hin. inversion Hin.
  - reflexivity.
  - reflexivity.
  - split; [exact (Hall eq_refl)|]. split; [exact Hqueue | exact (Hcontains eq_refl)].
Defined.

(** The three methods on an id that the repository of two servers does not
    track. *)
Lemma unknown_id_is_ignored_witness :
  PersistentServerRepository.update (runtime := ReferenceJSON.runtime)
    "s9" Example.connected_b Example.two_servers = (Ok (), Example.two_servers) ∧
  PersistentServerRepository.rename (runtime := ReferenceJSON.runtime)
    "s9" "Home" Example.two_servers = (Ok (), Example.two_servers) ∧
  PersistentServerRepository.forget (runtime := ReferenceJSON.runtime)
    "s9" Example.two_servers = (Ok (), Example.two_servers).
Proof.
  apply (unknown_id_is_ignored (runtime := ReferenceJSON.runtime)). reflexivity.
Defined.

(** [update] of the dynamic server [s2] with another source URL. *)
Lemma update_replaces_source_witness :
  let r' :=
    (PersistentServerRepository.update (runtime := ReferenceJSON.runtime)
       "s2" Example.connected_b Example.two_servers).2 in
  (OutlineServer.config <$> PersistentServerRepository.getById "s2" r')
  = Some {| ServerConfig.name := Some "Broken server"; proxy := None;
            source := Some {| url := "https://b.example/key" |} |} ∧
  PersistentServerRepository.eventQueue r' = [].
Proof.
  destruct (update_replaces_source (runtime := ReferenceJSON.runtime)
              "s2" Example.connected_b
              (Example.server_of "s2" Example.dynamic_config) Example.two_servers)
    as (_ & Hget & _ & _ & _ & Hqueue & _).
  - reflexivity.
  - discriminate.
  - split; [by rewrite Hget | exact Hqueue].
Defined.

(** [update] of the dynamic server [s2] with the source URL that it has. *)
Lemma update_twice_witness :
  PersistentServerRepository.update (runtime := ReferenceJSON.runtime)
    "s2" Scenario.home_config Example.two_servers = (Ok (), Example.two_servers).
Proof.
  destruct (update_twice (runtime := ReferenceJSON.runtime)
              "s2" Scenario.home_config Example.two_servers) as [Hsame _].
  apply (Hsame (Example.server_of "s2" Example.dynamic_config)); reflexivity.
Defined.

(** [forget] of [s1] and then of [s2] on the repository of two servers. *)
Lemma forget_overwrites_buffer_witness :
  let r2 :=
    (PersistentServerRepository.forget (runtime := ReferenceJSON.runtime) "s2"
       (PersistentServerRepository.forget (runtime := ReferenceJSON.runtime) "s1"
          Example.two_servers).2).2 in
  PersistentServerRepository.undoForget (runtime := ReferenceJSON.runtime) "s1" r2
    = (Ok (), r2) ∧
  PersistentServerRepository.getById "s2"
    (PersistentServerRepository.undoForget (runtime := ReferenceJSON.runtime) "s2" r2).2
    = Some (Example.server_of "s2" Example.dynamic_config).
Proof.
  destruct (forget_overwrites_buffer (runtime := ReferenceJSON.runtime)
              "s1" "s2" (Example.server_of "s1" Example.static_config)
              (Example.server_of "s2" Example.dynamic_config) Example.two_servers)
    as (_ & _ & _ & Hfirst & Hsecond & _).
  - reflexivity.
  - reflexivity.
  - reflexivity.
  - reflexivity.
  - discriminate.
  - split; [exact Hfirst | exact Hsecond].
Defined.

(** ** Objects that are built by assignments *)

Section Assignments.
Context {V : Type}.
Implicit Types (o l : list (string * V)) (k : string).

Lemma assignments_get k l : ∀ o,
  NoDup (JsMap.keys l) →
  JsMap.get k (foldl (λ o e, JsObject.set e.1 e.2 o) o l) =
  match JsMap.get k l with
  | Some v => Some v
  | None => JsMap.get k o
  end.
Proof.
  unfold JsMap.keys. induction l as [|[k0 v0] l IH]; intros o Hl; [reflexivity|].
  rewrite fmap_cons in Hl. cbn [fst] in Hl. apply NoDup_cons in Hl as [Hk0 Hl].
  cbn [foldl fst snd JsMap.get]. rewrite IH by exact Hl.
  rewrite JsObject_get_set.
  destruct (decide (k0 = k)) as [->|Hne]; [|reflexivity].
  by apply (JsMap_get_None_keys k l) in Hk0 as ->.
Qed.

Lemma assignments_NoDup l : ∀ o,
  NoDup (JsMap.keys o) →
  NoDup (JsMap.keys (foldl (λ o e, JsObject.set e.1 e.2 o) o l)).
Proof.
  induction l as [|[k0 v0] l IH]; intros o Ho; [exact Ho|].
  cbn [foldl]. apply IH. by apply JsObject_NoDup_set.
Qed.

Lemma assignments_keys l : ∀ o,
  NoDup (JsMap.keys l) →
  (∀ k, k ∈ JsMap.keys l → k ∉ JsMap.keys o) →
  JsMap.keys (foldl (λ o e, JsObject.set e.1 e.2 o) o l)
  ≡ₚ JsMap.keys o ++ JsMap.keys l.
Proof.
  unfold JsMap.keys. induction l as [|[k0 v0] l IH]; intros o Hl Hfresh.
  - by rewrite app_nil_r.
  - rewrite fmap_cons in Hl. cbn [fst] in Hl. apply NoDup_cons in Hl as [Hk0 Hl].
    cbn [foldl fst snd]. rewrite IH; [|exact Hl|].
    + pose proof (JsObject_keys_set k0 v0 o) as Hset. unfold JsMap.keys in Hset.
      rewrite Hset, decide_False by (apply Hfresh; rewrite fmap_cons; left).
      rewrite fmap_cons. cbn [fst app]. apply Permutation_middle.
    + intros k Hk. pose proof (JsObject_keys_set k0 v0 o) as Hset.
      unfold JsMap.keys in Hset. rewrite Hset.
      rewrite decide_False by (apply Hfresh; rewrite fmap_cons; left).
      rewrite not_elem_of_cons. split; [intros ->; done|].
      apply Hfresh. rewrite fmap_cons. by right.
Qed.
End Assignments.

Lemma JsMap_get_fmap {V W : Type} (g : V → W) k (m : list (string * V)) :
  JsMap.get k ((λ e, (e.1, g e.2)) <$> m) = g <$> JsMap.get k m.
Proof.
  induction m as [|[k0 v0] m IH]; [reflexivity|]. rewrite fmap_cons. cbn.
  by destruct (decide (k0 = k)).
Qed.

Lemma foldl_fmap_list {A B C : Type} (f : C → B → C) (g : A → B) (c : C) (l : list A) :
  foldl f c (g <$> l) = foldl (λ c a, f c (g a)) c l.
Proof. revert c. induction l as [|a l IH]; intros c; [reflexivity|]. cbn. apply IH. Qed.

(** The object that [storeServers] builds for a repository that files each
    server under its id: one property for each entry of the map. *)
Lemma configById_of_keyed r :
  keyed_by_id r →
  NoDup (JsMap.keys (PersistentServerRepository.configById_of
                       (PersistentServerRepository.getAll r))) ∧
  JsMap.keys (PersistentServerRepository.configById_of
                (PersistentServerRepository.getAll r))
  ≡ₚ JsMap.keys (PersistentServerRepository.serverById r) ∧
  ∀ k,
    JsMap.get k (PersistentServerRepository.configById_of
                   (PersistentServerRepository.getAll r))
    = (λ server, json_of_config (OutlineServer.config server))
        <$> PersistentServerRepository.getById k r.
Proof.
  intros [Hkeys Hids].
  unfold PersistentServerRepository.getAll, PersistentServerRepository.getById,
    JsMap.values.
  set (m := PersistentServerRepository.serverById r) in *.
  set (l := (λ e : string * Server.t,
               (e.1, json_of_config (OutlineServer.config e.2))) <$> m).
  assert (PersistentServerRepository.configById_of m.*2
          = foldl (λ o e, JsObject.set e.1 e.2 o) [] l) as ->.
  { unfold PersistentServerRepository.configById_of, l.
    rewrite !foldl_fmap_list. clearbody m. clear l Hkeys.
    generalize (@nil (string * json)).
    induction m as [|[k0 s0] m IH]; intros o; [reflexivity|]. cbn [foldl fst snd].
    rewrite (Hids k0 s0) by left. apply IH. intros k s Hin. apply Hids. by right. }
  assert (JsMap.keys l = JsMap.keys m) as Hl.
  { unfold JsMap.keys, l. rewrite <- list_fmap_compose. reflexivity. }
  split; [|split].
  - apply assignments_NoDup. constructor.
  - rewrite assignments_keys; [by rewrite Hl| by rewrite Hl |].
    intros k _ Hin. inversion Hin.
  - intros k. rewrite assignments_get by (by rewrite Hl).
    unfold l.
    rewrite (JsMap_get_fmap (λ server, json_of_config (OutlineServer.config server))).
    by destruct (JsMap.get k m).
Qed.

(** ** The constructor *)

Section Constructor.
Context {runtime : Runtime} {laws : RuntimeLaws runtime}.
Context {factory : PersistentServerFactory}.
Import PersistentServerRepository.

Lemma truthy_false (v : option string) :
  truthy v = false ↔ v = None ∨ v = Some "".
Proof.
  unfold truthy. destruct v as [s|].
  - rewrite negb_false_iff, bool_decide_eq_true. split.
    + intros ->. by right.
    + intros [?|?]; by simplify_eq.
  - split; [by left | done].
Qed.

Lemma loadServers_falsy (st : gmap string string) :
  truthy (st !! SERVERS_STORAGE_KEY) = false → loadServers st = Ok [].
Proof.
  intros Hcurrent. unfold loadServers.
  apply truthy_false in Hcurrent as [-> | ->]; [reflexivity|].
  by rewrite decide_True.
Qed.

Lemma migrate_entries_thrown e entries :
  foldl migrate_entry (Throw e) entries = Throw e.
Proof. induction entries as [|entry entries IH]; [reflexivity|]. exact IH. Qed.

Lemma migrate_entries_null entries : ∀ o k,
  ((k, JNull) : string * json) ∈ entries →
  foldl migrate_entry (Ok o) entries = Throw TypeError.
Proof.
  induction entries as [|[k0 v0] entries IH]; intros o k Hin; [inversion Hin|].
  cbn [foldl]. unfold migrate_entry at 2. cbn [fst snd].
  destruct (get_name v0) as [name|] eqn:Hname.
  - apply (IH _ k). apply elem_of_cons in Hin as [Heq|Hin]; [|exact Hin].
    by simplify_eq.
  - apply migrate_entries_thrown.
Qed.

Lemma migrate_entries_objects entries : ∀ o,
  (∀ k e, ((k, e) : string * json) ∈ entries → e ≠ JNull) →
  foldl migrate_entry (Ok o) entries =
  Ok (foldl (λ o e, JsObject.set e.1 e.2 o) o
        ((λ e, (e.1, migrated_entry e.2)) <$> entries)).
Proof.
  induction entries as [|[k0 v0] entries IH]; intros o Hentries; [reflexivity|].
  rewrite fmap_cons. cbn [foldl]. unfold migrate_entry at 2. cbn [fst snd].
  assert (v0 ≠ JNull) as Hv0 by (apply (Hentries k0); left).
  unfold migrated_entry at 1.
  destruct (get_name v0) as [name|] eqn:Hname; [|by destruct v0].
  cbn [default]. apply IH. intros k e Hin. apply (Hentries k). by right.
Qed.

Lemma migrate_entries_outcome entries o :
  (∃ o', foldl migrate_entry (Ok o) entries = Ok o') ∨
  foldl migrate_entry (Ok o) entries = Throw TypeError.
Proof.
  revert o. induction entries as [|[k0 v0] entries IH]; intros o; [left; by eexists|].
  cbn [foldl]. unfold migrate_entry at 2 4. cbn [fst snd].
  destruct (get_name v0); [apply IH|]. right. apply migrate_entries_thrown.
Qed.

(** X9: with nothing under the current key and no legacy record that can be
    read (none, an empty one, or one that does not parse), the constructor
    throws nothing, builds a repository without servers and leaves the
    storage as it was. *)
Theorem new_without_records (queue : list OutlineEvent) (st : gmap string string) :
  truthy (st !! SERVERS_STORAGE_KEY) = false →
  (∀ legacy, st !! SERVERS_STORAGE_KEY_V0 = Some legacy →
             legacy = "" ∨ ∃ message, JSON_parse legacy = inl message) →
  new queue st =
  (Ok {| serverById := []; lastForgottenServer := None;
         eventQueue := queue; storage := st |}, st).
Proof.
  intros Hcurrent Hlegacy.
  assert (migrateStorageV1 st = (Ok (), st)) as Hmigrate.
  { unfold migrateStorageV1. rewrite Hcurrent.
    destruct (st !! SERVERS_STORAGE_KEY_V0) as [legacy|]; [|reflexivity].
    destruct (decide (legacy = "")); [reflexivity|].
    destruct (Hlegacy legacy eq_refl) as [?|[message ->]]; done. }
  unfold new. rewrite Hmigrate. by rewrite loadServers_falsy.
Qed.

(** X10: when the text under the current key is not empty and does not
    parse, the constructor throws an [Error] whose message is
    ['could not parse saved servers: '] followed by the message of the
    parser, and leaves the storage as it was. *)
Theorem new_corrupted_record (queue : list OutlineEvent) (st : gmap string string)
    (text message : string) :
  st !! SERVERS_STORAGE_KEY = Some text →
  text ≠ "" →
  JSON_parse text = inl message →
  new queue st =
  (Throw (JsError ("could not parse saved servers: " +:+ message)), st).
Proof.
  intros Hcurrent Htext Hparse. unfold new. rewrite migrateStorageV1_migrated.
  - unfold loadServers. by rewrite Hcurrent, decide_False, Hparse.
  - rewrite Hcurrent. cbn. by rewrite bool_decide_eq_false_2.
Qed.

(** X11: when nothing is under the current key and the legacy record has an
    entry that is [null], reading the name of that entry throws: migration
    and the constructor throw a [TypeError] and the storage is as it was. *)
Theorem new_null_legacy_entry (queue : list OutlineEvent) (st : gmap string string)
    (legacy k : string) (configByIdV0 : json) :
  truthy (st !! SERVERS_STORAGE_KEY) = false →
  st !! SERVERS_STORAGE_KEY_V0 = Some legacy →
  JSON_parse legacy = inr configByIdV0 →
  (k, JNull) ∈ for_in configByIdV0 →
  migrateStorageV1 st = (Throw TypeError, st) ∧
  new queue st = (Throw TypeError, st).
Proof.
  intros Hcurrent Hlegacy Hparse Hnull.
  assert (migrateStorageV1 st = (Throw TypeError, st)) as Hmigrate.
  { unfold migrateStorageV1. rewrite Hcurrent, Hlegacy.
    rewrite decide_False by exact (JSON_parse_nonempty _ _ Hparse).
    by rewrite Hparse, (migrate_entries_null _ [] k Hnull). }
  split; [exact Hmigrate|]. unfold new. by rewrite Hmigrate.
Qed.

(** X12: migration writes no key but the current one, throws nothing but a
    [TypeError], and leaves the storage as it was when it throws and when
    the current key already holds a text; the constructor writes nothing
    beyond what migration writes. *)
Theorem migrateStorageV1_frame (queue : list OutlineEvent) (st : gmap string string) :
  (∀ k, k ≠ SERVERS_STORAGE_KEY → (migrateStorageV1 st).2 !! k = st !! k) ∧
  (∀ e, (migrateStorageV1 st).1 = Throw e →
        e = TypeError ∧ (migrateStorageV1 st).2 = st) ∧
  (truthy (st !! SERVERS_STORAGE_KEY) = true → migrateStorageV1 st = (Ok (), st)) ∧
  (new queue st).2 = (migrateStorageV1 st).2.
Proof.
  split; [|split; [|split]].
  - intros k Hk. unfold migrateStorageV1.
    destruct (truthy _); [reflexivity|].
    destruct (st !! SERVERS_STORAGE_KEY_V0) as [legacy|]; [|reflexivity].
    destruct (decide _); [reflexivity|].
    destruct (JSON_parse legacy) as [message|v]; [reflexivity|].
    destruct (foldl _ _ _); [|reflexivity]. cbn. by rewrite lookup_insert_ne.
  - intros e. unfold migrateStorageV1.
    destruct (truthy _); [discriminate|].
    destruct (st !! SERVERS_STORAGE_KEY_V0) as [legacy|]; [|discriminate].
    destruct (decide _); [discriminate|].
    destruct (JSON_parse legacy) as [message|v]; [discriminate|].
    destruct (migrate_entries_outcome (for_in v) []) as [[o' ->] | ->];
      [discriminate|]. by intros [= <-].
  - apply migrateStorageV1_migrated.
  - apply new_storage.
Qed.
End Constructor.

(** ** Records of many servers *)

Section Records.
Context {runtime : Runtime} {laws : RuntimeLaws runtime}.
Context {factory : PersistentServerFactory}.
Import PersistentServerRepository.

Lemma load_entries_fresh entries : ∀ servers,
  NoDup (JsMap.keys entries) →
  (∀ k, k ∈ JsMap.keys entries → k ∉ JsMap.keys servers) →
  foldl load_entry servers entries = servers ++ omap loaded_entry entries.
Proof.
  unfold JsMap.keys. induction entries as [|[k0 v0] entries IH];
    intros servers Hentries Hfresh.
  - by rewrite app_nil_r.
  - rewrite fmap_cons in Hentries. cbn [fst] in Hentries.
    apply NoDup_cons in Hentries as [Hk0 Hentries].
    cbn [foldl omap list_omap]. unfold load_entry at 2, loaded_entry at 1.
    cbn [fst snd].
    destruct (createServer k0 v0) as [server|e].
    + rewrite JsMap_set_absent.
      2: { apply JsMap_get_None_keys, Hfresh. rewrite fmap_cons. left. }
      rewrite IH; [by rewrite <- app_assoc | exact Hentries |].
      intros k Hk. rewrite fmap_app, elem_of_app. intros [Hin|Hin].
      * revert Hin. apply Hfresh. rewrite fmap_cons. by right.
      * apply list_elem_of_singleton in Hin. cbn in Hin. congruence.
    + apply IH; [exact Hentries|]. intros k Hk. apply Hfresh.
      rewrite fmap_cons. by right.
Qed.

Lemma loadServers_record (st : gmap string string) text configById :
  st !! SERVERS_STORAGE_KEY = Some text →
  JSON_parse text = inr configById →
  NoDup (JsMap.keys (for_in configById)) →
  loadServers st = Ok (omap loaded_entry (for_in configById)).
Proof.
  intros Hcurrent Hparse Hkeys. unfold loadServers.
  rewrite Hcurrent, decide_False by exact (JSON_parse_nonempty _ _ Hparse).
  rewrite Hparse, load_entries_fresh; [reflexivity | exact Hkeys |].
  intros k _ Hin. inversion Hin.
Qed.

Lemma new_current_record queue (st : gmap string string) text configById :
  st !! SERVERS_STORAGE_KEY = Some text →
  JSON_parse text = inr configById →
  new queue st =
  (match loadServers st with
   | Ok servers =>
       Ok {| serverById := servers; lastForgottenServer := None;
             eventQueue := queue; storage := st |}
   | Throw e => Throw e
   end, st).
Proof.
  intros Hcurrent Hparse. unfold new. rewrite migrateStorageV1_migrated.
  - by destruct (loadServers st).
  - rewrite Hcurrent. cbn.
    by rewrite bool_decide_eq_false_2 by exact (JSON_parse_nonempty _ _ Hparse).
Qed.

(** X13: when the text under the current key parses to a record whose keys
    are distinct, the constructor throws nothing, and the map of the
    repository holds, in the order of the record, exactly one entry for each
    entry of the record for which the factory returns a server: the server,
    flagged if its cipher is unsupported, under the key of the entry. The
    buffer is empty and queue and storage are as they were. *)
Theorem new_loads_record (queue : list OutlineEvent) (st : gmap string string)
    (text : string) (configById : json) :
  st !! SERVERS_STORAGE_KEY = Some text →
  JSON_parse text = inr configById →
  NoDup (JsMap.keys (for_in configById)) →
  new queue st =
  (Ok {| serverById := omap loaded_entry (for_in configById);
         lastForgottenServer := None;
         eventQueue := queue;
         storage := st |}, st).
Proof.
  intros Hcurrent Hparse Hkeys.
  rewrite (new_current_record queue st text configById Hcurrent Hparse).
  by rewrite (loadServers_record st text configById).
Qed.



Lemma JsMap_get_omap k (f : string * json → option (string * Server.t)) entries :
  (∀ entry, entry ∈ entries → ∃ server, f entry = Some (entry.1, server)) →
  JsMap.keys (omap f entries) = JsMap.keys entries ∧
  JsMap.get k (omap f entries) =
  JsMap.get k entries ≫= λ v, snd <$> f (k, v).
Proof.
  unfold JsMap.keys. induction entries as [|[k0 v0] entries IH]; intros Hbuilt.
  - done.
  - destruct (Hbuilt (k0, v0)) as [server Hf]; [left|].
    destruct IH as [IHkeys IHget]; [intros entry Hin; apply Hbuilt; by right|].
    cbn [omap list_omap]. rewrite Hf. rewrite !fmap_cons. cbn [fst JsMap.get].
    split; [by rewrite IHkeys|].
    destruct (decide (k0 = k)) as [->|]; [|exact IHget].
    cbn. by rewrite Hf.
Qed.

(** X15: what [storeServers] writes, the constructor reads back. For a
    repository that files each server under its id, if the parser returns
    the record that was printed and the factory rebuilds every tracked
    server with its configuration, then loading the storage that
    [storeServers] leaves gives a map with the same ids and, under each id,
    a server with the same configuration. *)
Theorem store_load_round_trip (r : t) :
  keyed_by_id r →
  JSON_parse (JSON_stringify (JObj (configById_of (getAll r))))
  = inr (JObj (configById_of (getAll r))) →
  (∀ k server, (k, server) ∈ serverById r →
     ∃ server',
       createServer k (json_of_config (OutlineServer.config server)) = Ok server' ∧
       OutlineServer.config server' = OutlineServer.config server) →
  ∃ servers,
    loadServers (storage (storeServers r)) = Ok servers ∧
    JsMap.keys servers ≡ₚ JsMap.keys (serverById r) ∧
    ∀ k, OutlineServer.config <$> JsMap.get k servers
         = OutlineServer.config <$> getById k r.
Proof.
  intros Hkeyed Hparse Hfactory.
  destruct (configById_of_keyed r Hkeyed) as (Hnodup & Hkeys & Hget).
  set (entries := configById_of (getAll r)) in *.
  exists (omap loaded_entry entries).
  assert (∀ entry, entry ∈ entries →
            ∃ built, loaded_entry entry = Some (entry.1, built) ∧
              ∀ server, getById entry.1 r = Some server →
                        OutlineServer.config built = OutlineServer.config server)
    as Hbuilt.
  { intros [k j] Hin. cbn [fst].
    pose proof (JsMap_get_elem_of_NoDup k j entries Hnodup Hin) as Hj.
    rewrite Hget in Hj. destruct (getById k r) as [server|] eqn:Hserver; [|discriminate].
    injection Hj as <-.
    destruct (Hfactory k server) as (built & Hcreate & Hconfig);
      [by apply JsMap_get_elem_of|].
    exists (flag_unsupported built). unfold loaded_entry. cbn [fst snd].
    rewrite Hcreate. split; [reflexivity|]. intros server' [= <-].
    unfold flag_unsupported. by destruct (isServerCipherSupported _). }
  destruct (JsMap_get_omap "" loaded_entry entries) as [Hsame _].
  { intros entry Hin. destruct (Hbuilt entry Hin) as (built & ? & _). by exists built. }
  split; [|split].
  - apply (loadServers_record _ (JSON_stringify (JObj entries)) (JObj entries));
      [apply lookup_insert_eq | exact Hparse | exact Hnodup].
  - by rewrite Hsame.
  - intros k. destruct (JsMap_get_omap k loaded_entry entries) as [_ ->].
    { intros entry Hin. destruct (Hbuilt entry Hin) as (built & ? & _). by exists built. }
    rewrite Hget. destruct (getById k r) as [server|] eqn:Hserver; [|reflexivity].
    cbn. assert ((k, json_of_config (OutlineServer.config server)) ∈ entries) as Hin.
    { apply JsMap_get_elem_of. rewrite Hget, Hserver. reflexivity. }
    destruct (Hbuilt _ Hin) as (built & -> & Hconfig). cbn.
    by rewrite (Hconfig server Hserver).
Qed.

(** X16: when nothing is under the current key and the legacy record parses
    to entries with distinct keys none of which is [null], migration throws
    nothing, changes no other key, and writes under the current key the text
    of a record with the same keys that maps each key to [{proxy, name}]:
    the legacy entry as [proxy], and as [name] the name of the legacy entry,
    left out when the entry has none. *)
Theorem migration_of_legacy_records (st : gmap string string) (legacy : string)
    (configByIdV0 : json) :
  truthy (st !! SERVERS_STORAGE_KEY) = false →
  st !! SERVERS_STORAGE_KEY_V0 = Some legacy →
  JSON_parse legacy = inr configByIdV0 →
  NoDup (JsMap.keys (for_in configByIdV0)) →
  (∀ k entry, (k, entry) ∈ for_in configByIdV0 → entry ≠ JNull) →
  ∃ configByIdV1,
    migrateStorageV1 st =
      (Ok (), <[SERVERS_STORAGE_KEY := JSON_stringify (JObj configByIdV1)]> st) ∧
    JsMap.keys configByIdV1 ≡ₚ JsMap.keys (for_in configByIdV0) ∧
    ∀ k, JsObject.get k configByIdV1
         = migrated_entry <$> JsObject.get k (for_in configByIdV0).
Proof.
  intros Hcurrent Hlegacy Hparse Hkeys Hentries.
  set (l := (λ e : string * json, (e.1, migrated_entry e.2)) <$> for_in configByIdV0).
  assert (JsMap.keys l = JsMap.keys (for_in configByIdV0)) as Hl.
  { unfold JsMap.keys, l. by rewrite <- list_fmap_compose. }
  exists (foldl (λ o e, JsObject.set e.1 e.2 o) [] l). split; [|split].
  - unfold migrateStorageV1. rewrite Hcurrent, Hlegacy.
    rewrite decide_False by exact (JSON_parse_nonempty _ _ Hparse).
    by rewrite Hparse, (migrate_entries_objects _ [] Hentries).
  - rewrite assignments_keys; [by rewrite Hl | by rewrite Hl |].
    intros k _ Hin. inversion Hin.
  - intros k. unfold JsObject.get. rewrite assignments_get by (by rewrite Hl).
    unfold l. rewrite (JsMap_get_fmap migrated_entry).
    by destruct (JsMap.get k (for_in configByIdV0)).
Qed.
End Records.

(** The constructor on a storage whose only record is a legacy text that is
    cut off. *)
Lemma new_without_records_witness :
  PersistentServerRepository.new (runtime := ReferenceJSON.runtime)
    (factory := Example.factory) []
    {[ PersistentServerRepository.SERVERS_STORAGE_KEY_V0 := "{" ]}
  = (Ok {| PersistentServerRepository.serverById := [];
           PersistentServerRepository.lastForgottenServer := None;
           PersistentServerRepository.eventQueue := [];
           PersistentServerRepository.storage :=
             {[ PersistentServerRepository.SERVERS_STORAGE_KEY_V0 := "{" ]} |},
     {[ PersistentServerRepository.SERVERS_STORAGE_KEY_V0 := "{" ]}).
Proof.
  apply (new_without_records (runtime := ReferenceJSON.runtime)
           (factory := Example.factory)).
  - reflexivity.
  - intros legacy Hlegacy. rewrite lookup_singleton_eq in Hlegacy.
    injection Hlegacy as <-. right. eexists. reflexivity.
Defined.

(** The constructor on a current record that is cut off. *)
Lemma new_corrupted_record_witness :
  PersistentServerRepository.new (runtime := ReferenceJSON.runtime)
    (factory := Example.factory) [] Scenario.corrupted_storage
  = (Throw (JsError "could not parse saved servers: Unexpected end of JSON input"),
     Scenario.corrupted_storage).
Proof.
  apply (new_corrupted_record (runtime := ReferenceJSON.runtime)
           (factory := Example.factory) [] Scenario.corrupted_storage "{"
           "Unexpected end of JSON input").
  - reflexivity.
  - discriminate.
  - reflexivity.
Defined.

(** The constructor on a legacy record whose second entry is [null]. *)
Lemma new_null_legacy_entry_witness :
  PersistentServerRepository.new (runtime := ReferenceJSON.runtime)
    (factory := Example.factory) [] Scenario.null_legacy_storage
  = (Throw TypeError, Scenario.null_legacy_storage).
Proof.
  apply (new_null_legacy_entry (runtime := ReferenceJSON.runtime)
           (factory := Example.factory) [] Scenario.null_legacy_storage
           (ReferenceJSON.stringify (JObj [("s1", Example.legacy_proxy); ("s2", JNull)]))
           "s2" (JObj [("s1", Example.legacy_proxy); ("s2", JNull)])).
  - reflexivity.
  - reflexivity.
  - vm_compute. reflexivity.
  - right. left.
Defined.

(** Migration of the legacy record whose second entry is [null]. *)
Lemma migrateStorageV1_frame_witness :
  (PersistentServerRepository.migrateStorageV1 (runtime := ReferenceJSON.runtime)
     Scenario.null_legacy_storage).2 = Scenario.null_legacy_storage.
Proof.
  destruct (migrateStorageV1_frame (runtime := ReferenceJSON.runtime)
              (factory := Example.factory) [] Scenario.null_legacy_storage)
    as (_ & Hthrow & _).
  destruct (Hthrow TypeError) as [_ Hsame]; [vm_compute; reflexivity | exact Hsame].
Defined.

(** The constructor on the current record with the entries [bad] and
    [good]. *)
Lemma new_loads_record_witness :
  (PersistentServerRepository.new (runtime := ReferenceJSON.runtime)
     (factory := Example.factory) [] Example.damaged_storage).1
  = Ok {| PersistentServerRepository.serverById :=
            [("good", Example.server_of "good" Example.static_config)];
          PersistentServerRepository.lastForgottenServer := None;
          PersistentServerRepository.eventQueue := [];
          PersistentServerRepository.storage := Example.damaged_storage |}.
Proof.
  rewrite (new_loads_record (runtime := ReferenceJSON.runtime)
             (factory := Example.factory) [] Example.damaged_storage
             (ReferenceJSON.stringify
                (JObj [("bad", JNull); ("good", json_of_config Example.static_config)]))
             (JObj [("bad", JNull); ("good", json_of_config Example.static_config)])).
  - reflexivity.
  - reflexivity.
  - vm_compute. reflexivity.
  - apply (bool_decide_unpack _). vm_compute. exact I.
Defined.


(** Storing and loading the repository of two servers. *)
Lemma store_load_round_trip_witness :
  ∃ servers,
    PersistentServerRepository.loadServers (runtime := ReferenceJSON.runtime)
      (factory := Example.factory)
      (PersistentServerRepository.storage Scenario.stored_two_servers) = Ok servers ∧
    JsMap.keys servers ≡ₚ ["s1"; "s2"] ∧
    ∀ k, OutlineServer.config <$> JsMap.get k servers
         = OutlineServer.config <$>
             PersistentServerRepository.getById k Example.two_servers.
Proof.
  apply (store_load_round_trip (runtime := ReferenceJSON.runtime)
           (factory := Example.factory) Example.two_servers).
  - split.
    + apply (bool_decide_unpack _). vm_compute. exact I.
    + intros k server Hin. cbn in Hin.
      apply elem_of_cons in Hin as [Heq|Hin]; [by simplify_eq|].
      apply list_elem_of_singleton in Hin. by simplify_eq.
  - vm_compute. reflexivity.
  - intros k server Hin. cbn in Hin.
    apply elem_of_cons in Hin as [Heq|Hin].
    + simplify_eq. eexists. split; reflexivity.
    + apply list_elem_of_singleton in Hin. simplify_eq. eexists. split; reflexivity.
Defined.

(** Migration of a legacy record of two servers, the second without a
    name. *)
Lemma migration_of_legacy_records_witness :
  ∃ configByIdV1,
    PersistentServerRepository.migrateStorageV1 (runtime := ReferenceJSON.runtime)
      Scenario.two_legacy_storage
    = (Ok (),
       <[PersistentServerRepository.SERVERS_STORAGE_KEY :=
           ReferenceJSON.stringify (JObj configByIdV1)]> Scenario.two_legacy_storage) ∧
    JsObject.get "s1" configByIdV1
    = Some (JObj [("proxy", Example.legacy_proxy); ("name", JStr "N")]) ∧
    JsObject.get "s2" configByIdV1
    = Some (JObj [("proxy", Scenario.nameless_legacy_proxy)]).
Proof.
  destruct (migration_of_legacy_records (runtime := ReferenceJSON.runtime)
              Scenario.two_legacy_storage
              (ReferenceJSON.stringify
                 (JObj [("s1", Example.legacy_proxy);
                        ("s2", Scenario.nameless_legacy_proxy)]))
              (JObj [("s1", Example.legacy_proxy);
                     ("s2", Scenario.nameless_legacy_proxy)]))
    as (configByIdV1 & Hmigrate & _ & Hget).
  - reflexivity.
  - reflexivity.
  - vm_compute. reflexivity.
  - apply (bool_decide_unpack _). vm_compute. exact I.
  - intros k entry Hin. cbn in Hin.
    apply elem_of_cons in Hin as [Heq|Hin]; [by simplify_eq|].
    apply list_elem_of_singleton in Hin. by simplify_eq.
  - exists configByIdV1. split; [exact Hmigrate|]. by rewrite !Hget.
Defined.

(** ** The server adapter *)

Lemma set_tunnel_same (s : Server.t) : Server.set_tunnel (Server.tunnel s) s = s.
Proof. by destruct s. Qed.

Lemma set_running_same (tn : Tunnel.t) b :
  Tunnel.running tn = b → Tunnel.set_running b tn = tn.
Proof. intros <-. by destruct tn. Qed.

Lemma set_proxy_same (tn : Tunnel.t) v :
  proxy (Tunnel.config tn) = v → Tunnel.set_proxy v tn = tn.
Proof. intros <-. by destruct tn as [[] ? ?]. Qed.

Lemma name_after_set_name newName s :
  OutlineServer.name (OutlineServer.set_name newName s)
  = (if decide (newName = "") then OutlineServer.host s else newName) ∧
  OutlineServer.host (OutlineServer.set_name newName s) = OutlineServer.host s.
Proof.
  unfold OutlineServer.name, OutlineServer.host, OutlineServer.set_name,
    OutlineServer.set_config, OutlineServer.config. cbn.
  destruct (proxy (Tunnel.config (Server.tunnel s))) as [p|]; cbn;
    destruct (decide (newName = "")); done.
Qed.

(** X17: after [rename] of a tracked server, the server under that id shows
    the new name, unless the new name is empty: then it shows its host
    ([host:port] of the proxy, else the URL of the source). The host that is
    shown does not change, the text of the map is stored, the other ids are
    left alone and one [ServerRenamed] for the renamed server is enqueued. *)
Theorem rename_shows_new_name {runtime : Runtime} (id newName : string)
    (server : Server.t) (r : PersistentServerRepository.t) :
  PersistentServerRepository.getById id r = Some server →
  let r' := (PersistentServerRepository.rename id newName r).2 in
  ∃ server',
    PersistentServerRepository.getById id r' = Some server' ∧
    OutlineServer.name server'
    = (if decide (newName = "") then OutlineServer.host server else newName) ∧
    OutlineServer.host server' = OutlineServer.host server ∧
    (∀ k, k ≠ id → PersistentServerRepository.getById k r'
                   = PersistentServerRepository.getById k r) ∧
    persisted r' ∧
    PersistentServerRepository.eventQueue r'
    = PersistentServerRepository.eventQueue r ++ [ServerRenamed server'] ∧
    PersistentServerRepository.lastForgottenServer r'
    = PersistentServerRepository.lastForgottenServer r.
Proof.
  intros Hget r'. subst r'. unfold PersistentServerRepository.rename. rewrite Hget.
  cbn [snd]. exists (OutlineServer.set_name newName server).
  destruct (name_after_set_name newName server) as [Hname Hhost].
  split; [apply JsMap_get_set_eq|]. split; [exact Hname|]. split; [exact Hhost|].
  split; [intros k Hk; by apply JsMap_get_set_ne|].
  split; [|done].
  by apply (persisted_after_store
              (PersistentServerRepository.set_serverById
                 (JsMap.set id (OutlineServer.set_name newName server)
                    (PersistentServerRepository.serverById r)) r)).
Qed.

Section Adapter.
Context {errors : ErrorTable} {tunnels : TunnelClass}.

(** X18: [disconnect] throws nothing when the stop of the tunnel throws
    nothing, and [RegularNativeError] whatever the stop throws. In both cases
    the configuration has no proxy afterwards if it has a source then, and
    the tunnel is as the stop left it if the configuration has no source. *)
Theorem disconnect_discards_proxy (server : Server.t) :
  ((stop (Server.tunnel server)).1 = Ok () →
   (OutlineServer.disconnect server).1 = Ok ()) ∧
  (∀ e, (stop (Server.tunnel server)).1 = Throw e →
        (OutlineServer.disconnect server).1 = Throw RegularNativeError) ∧
  (is_Some (source (Tunnel.config (stop (Server.tunnel server)).2)) →
   proxy (OutlineServer.config (OutlineServer.disconnect server).2) = None ∧
   source (OutlineServer.config (OutlineServer.disconnect server).2)
   = source (Tunnel.config (stop (Server.tunnel server)).2)) ∧
  (source (Tunnel.config (stop (Server.tunnel server)).2) = None →
   Server.tunnel (OutlineServer.disconnect server).2 = (stop (Server.tunnel server)).2).
Proof.
  unfold OutlineServer.disconnect.
  destruct (stop (Server.tunnel server)) as [outcome tn]. cbn [fst snd].
  split; [by intros ->|]. split; [by intros e ->|]. split.
  - intros [src Hsrc]. by rewrite Hsrc.
  - by intros ->.
Qed.
End Adapter.


(** ** Connecting over the tunnels of the sources *)

Section FakeTunnel.
Context {errors : ErrorTable}.

(** X20: over the fake tunnel, for a dynamic server that is not running,
    has no proxy and whose name contains neither [broken] nor
    [unreachable], [connect] throws nothing and leaves the server running
    with the proxy [127.0.0.1:1080] that the fake fetch returns; a
    [disconnect] after that throws nothing and gives back the server as it
    was before [connect]. *)
Theorem fake_connect_disconnect_round_trip (server : Server.t) :
  is_Some (source (OutlineServer.config server)) →
  proxy (OutlineServer.config server) = None →
  Tunnel.running (Server.tunnel server) = false →
  FakeOutlineTunnel.playBroken (Server.tunnel server) = false →
  FakeOutlineTunnel.playUnreachable (Server.tunnel server) = false →
  let connected :=
    (OutlineServer.connect (tunnels := FakeOutlineTunnel.tunnel_class) server).2 in
  (OutlineServer.connect (tunnels := FakeOutlineTunnel.tunnel_class) server).1 = Ok () ∧
  Tunnel.running (Server.tunnel connected) = true ∧
  proxy (OutlineServer.config connected) = Some Scenario.fetched_proxy ∧
  OutlineServer.disconnect (tunnels := FakeOutlineTunnel.tunnel_class) connected
  = (Ok (), server).
Proof.
  intros [src Hsource] Hproxy Hrunning Hbroken Hunreachable connected.
  subst connected. destruct server as [id [[name p source] tid running] message].
  unfold OutlineServer.config in *. cbn in Hsource, Hproxy, Hrunning. subst.
  unfold OutlineServer.connect, OutlineServer.connect_attempt.
  unfold FakeOutlineTunnel.playBroken, FakeOutlineTunnel.playUnreachable,
    FakeOutlineTunnel.plays in *. cbn in Hbroken, Hunreachable.
  cbn. unfold FakeOutlineTunnel.start. cbn.
  unfold FakeOutlineTunnel.playBroken, FakeOutlineTunnel.playUnreachable,
    FakeOutlineTunnel.plays. cbn. rewrite Hbroken, Hunreachable. cbn.
  repeat split.
Qed.

(** X21: over the fake tunnel, [connect] of a server that is not running
    and has a proxy and no source throws the error of the code
    SERVER_UNREACHABLE if the name contains [unreachable], else the error of
    the code SHADOWSOCKS_START_FAILURE if the name contains [broken], and
    then leaves the server, with its proxy, as it was; else it throws
    nothing and the server is running. *)
Theorem fake_connect_static (server : Server.t) :
  source (OutlineServer.config server) = None →
  is_Some (proxy (OutlineServer.config server)) →
  Tunnel.running (Server.tunnel server) = false →
  OutlineServer.connect (tunnels := FakeOutlineTunnel.tunnel_class) server =
  if FakeOutlineTunnel.playUnreachable (Server.tunnel server)
  then (Throw (OutlineServer.rethrown (OutlinePluginError SERVER_UNREACHABLE)), server)
  else if FakeOutlineTunnel.playBroken (Server.tunnel server)
  then (Throw (OutlineServer.rethrown (OutlinePluginError SHADOWSOCKS_START_FAILURE)),
        server)
  else (Ok (), Server.set_tunnel (Tunnel.set_running true (Server.tunnel server)) server).
Proof.
  intros Hsource [p Hproxy] Hrunning.
  unfold OutlineServer.config in *.
  unfold OutlineServer.connect, OutlineServer.connect_attempt. rewrite Hsource.
  cbn [start FakeOutlineTunnel.tunnel_class]. unfold FakeOutlineTunnel.start.
  rewrite Hrunning, Hproxy.
  destruct (FakeOutlineTunnel.playUnreachable (Server.tunnel server));
    [by rewrite Hsource, set_tunnel_same|].
  destruct (FakeOutlineTunnel.playBroken (Server.tunnel server));
    [by rewrite Hsource, set_tunnel_same|].
  reflexivity.
Qed.
End FakeTunnel.

Section ElectronTunnel.
Context {errors : ErrorTable} {main : ElectronOutlineTunnel.MainProcess}.


End ElectronTunnel.

(** ** Ids in reachable repositories *)

(** X24: with a factory that gives each server the id it was asked for, in
    every repository that the constructor and the methods produce the
    tracked servers have distinct ids, and [getById] returns exactly the
    tracked server with that id. *)
Theorem reachable_repository_ids {runtime : Runtime} {factory : PersistentServerFactory}
    {honours : HonoursId factory} (r : PersistentServerRepository.t) :
  reachable r →
  NoDup (Server.id <$> PersistentServerRepository.getAll r) ∧
  ∀ id server,
    PersistentServerRepository.getById id r = Some server ↔
    server ∈ PersistentServerRepository.getAll r ∧ Server.id server = id.
Proof.
  intros Hreachable. destruct (reachable_keyed_by_id r Hreachable) as [Hkeys Hids].
  unfold PersistentServerRepository.getAll, PersistentServerRepository.getById,
    JsMap.values, JsMap.keys in *.
  set (m := PersistentServerRepository.serverById r) in *. clearbody m.
  assert (Server.id <$> m.*2 = m.*1) as Hsame.
  { clear Hkeys. induction m as [|[k s] m IH]; [reflexivity|].
    rewrite !fmap_cons. cbn [fst snd]. rewrite (Hids k s) by left.
    f_equal. apply IH. intros k' s' Hin. apply Hids. by right. }
  split; [by rewrite Hsame|]. intros id server. split.
  - intros Hget. split; [by apply (JsMap_get_values id)|].
    by apply Hids, JsMap_get_elem_of.
  - intros [Hin <-]. apply list_elem_of_fmap in Hin as ([k s] & -> & Hin).
    cbn [snd]. rewrite (Hids k s Hin). by apply JsMap_get_elem_of_NoDup.
Qed.

(** The repository that the constructor builds from the current record with
    the entries [bad] and [good]. *)
Lemma reachable_repository_ids_witness :
  PersistentServerRepository.getById "good"
    {| PersistentServerRepository.serverById :=
         [("good", Example.server_of "good" Example.static_config)];
       PersistentServerRepository.lastForgottenServer := None;
       PersistentServerRepository.eventQueue := [];
       PersistentServerRepository.storage := Example.damaged_storage |}
  = Some (Example.server_of "good" Example.static_config).
Proof.
  apply (reachable_repository_ids (runtime := ReferenceJSON.runtime)
           (factory := Example.factory)).
  - apply (reachable_new [] Example.damaged_storage _ Example.damaged_storage).
    vm_compute. reflexivity.
  - split; [left | reflexivity].
Defined.

(** [rename] of the static server [s1] to the empty name: the server shows
    its host. *)
Lemma rename_shows_new_name_witness :
  ∃ server',
    PersistentServerRepository.getById "s1"
      (PersistentServerRepository.rename (runtime := ReferenceJSON.runtime)
         "s1" "" Example.two_servers).2 = Some server' ∧
    OutlineServer.name server' = "h:1".
Proof.
  destruct (rename_shows_new_name (runtime := ReferenceJSON.runtime) "s1" ""
              (Example.server_of "s1" Example.static_config) Example.two_servers
              eq_refl)
    as (server' & Hget & Hname & _).
  exists server'. split; [exact Hget | exact Hname].
Defined.

(** [connect] and [disconnect] of the dynamic server [Home] over the fake
    tunnel. *)
Lemma fake_connect_disconnect_round_trip_witness :
  let server := Example.server_of "s4" Scenario.home_config in
  let fake := FakeOutlineTunnel.tunnel_class (errors := Example.error_table) in
  let connected :=
    (OutlineServer.connect (errors := Example.error_table) (tunnels := fake) server).2 in
  proxy (OutlineServer.config connected) = Some Scenario.fetched_proxy ∧
  OutlineServer.disconnect (tunnels := fake) connected = (Ok (), server).
Proof.
  destruct (fake_connect_disconnect_round_trip (errors := Example.error_table)
              (Example.server_of "s4" Scenario.home_config))
    as (_ & _ & Hproxy & Hback).
  - eexists. reflexivity.
  - reflexivity.
  - reflexivity.
  - reflexivity.
  - reflexivity.
  - split; [exact Hproxy | exact Hback].
Defined.

(** [connect] of a static server named [Unreachable and broken] over the
    fake tunnel: the unreachable role wins and the proxy stays. *)
Lemma fake_connect_static_witness :
  let server :=
    Example.server_of "s5"
      {| ServerConfig.name := Some "Unreachable and broken";
         proxy := Some Example.static_proxy; source := None |} in
  OutlineServer.connect (errors := Example.error_table)
    (tunnels := FakeOutlineTunnel.tunnel_class (errors := Example.error_table)) server
  = (Throw (OutlinePluginError 5), server).
Proof.
  apply (fake_connect_static (errors := Example.error_table)
           (Example.server_of "s5"
              {| ServerConfig.name := Some "Unreachable and broken";
                 proxy := Some Example.static_proxy; source := None |})).
  - reflexivity.
  - eexists. reflexivity.
  - reflexivity.
Defined.



(** ** The first candidate, and a duplicate through the buffer *)

(** X25: when the configuration has a source, the fetch returns candidates
    and the start that follows throws nothing, [connect] throws nothing and
    the tunnel was started with the first candidate as its proxy, the
    others being dropped; with no candidate at all it was started without a
    proxy. *)
Theorem connect_adopts_first_candidate {errors : ErrorTable} {tunnels : TunnelClass}
    (server : Server.t) (proxies : list ShadowsocksConfig.t) (tn tn' : Tunnel.t) :
  is_Some (source (OutlineServer.config server)) →
  fetchProxyConfig (Server.tunnel server) = (Ok (Some proxies), tn) →
  start (Tunnel.set_proxy (head proxies) tn) = (Ok (), tn') →
  OutlineServer.connect server = (Ok (), Server.set_tunnel tn' server) ∧
  proxy (Tunnel.config (Tunnel.set_proxy (head proxies) tn)) = proxies !! 0%nat.
Proof.
  intros [src Hsource] Hfetch Hstart. unfold OutlineServer.config in Hsource.
  unfold OutlineServer.connect, OutlineServer.connect_attempt.
  rewrite Hsource, Hfetch, Hstart. split; [reflexivity|]. by destruct proxies.
Qed.

(** The fake tunnel on the dynamic server [Home]. *)
Lemma connect_adopts_first_candidate_witness :
  OutlineServer.connect (errors := Example.error_table)
    (tunnels := FakeOutlineTunnel.tunnel_class (errors := Example.error_table))
    (Example.server_of "s4" Scenario.home_config)
  = (Ok (),
     Server.set_tunnel
       {| Tunnel.config :=
            ServerConfig.set_proxy (Some Scenario.fetched_proxy) Scenario.home_config;
          Tunnel.id := "s4"; Tunnel.running := true |}
       (Example.server_of "s4" Scenario.home_config)).
Proof.
  apply (connect_adopts_first_candidate (errors := Example.error_table)
           (tunnels := FakeOutlineTunnel.tunnel_class (errors := Example.error_table))
           (Example.server_of "s4" Scenario.home_config) [Scenario.fetched_proxy]
           (Server.tunnel (Example.server_of "s4" Scenario.home_config))).
  - eexists. reflexivity.
  - reflexivity.
  - reflexivity.
Defined.

(** X26: the duplicate check of [add] does not see the buffer. After
    [forget] of a tracked server, [add] of a configuration that no remaining
    server matches throws nothing even if the forgotten server matches it,
    and [undoForget] then puts the forgotten server back beside the new
    one: both are tracked. *)
Theorem undoForget_beside_new_server {runtime : Runtime}
    {factory : PersistentServerFactory} (idA uuid : string)
    (config : ServerConfig.t) (a b : Server.t) (r : PersistentServerRepository.t) :
  PersistentServerRepository.getById idA r = Some a →
  Server.id a = idA →
  (∀ tracked,
     tracked ∈ PersistentServerRepository.getAll
                 (PersistentServerRepository.forget idA r).2 →
     configsMatch (OutlineServer.config tracked) config = false) →
  isServerCipherSupported config = true →
  createServer uuid (json_of_config config) = Ok b →
  Server.id b ≠ idA →
  let r2 :=
    (PersistentServerRepository.add uuid config
       (PersistentServerRepository.forget idA r).2).2 in
  let r3 := (PersistentServerRepository.undoForget idA r2).2 in
  (PersistentServerRepository.add uuid config
     (PersistentServerRepository.forget idA r).2).1 = Ok () ∧
  PersistentServerRepository.getById idA r3 = Some a ∧
  PersistentServerRepository.getById (Server.id b) r3 = Some b ∧
  a ∈ PersistentServerRepository.getAll r3 ∧
  b ∈ PersistentServerRepository.getAll r3.
Proof.
  intros HgetA HidA Hnone Hsupported Hcreate Hne r2 r3. subst r3 r2 idA.
  apply serverFromConfig_None in Hnone.
  rewrite (forget_tracked _ a r HgetA) in *. cbn [snd] in *.
  unfold PersistentServerRepository.add.
  rewrite Hnone, Hsupported, Hcreate. cbn [negb fst snd].
  rewrite undoForget_buffered by reflexivity. cbn [snd].
  unfold PersistentServerRepository.getById, PersistentServerRepository.getAll.
  cbn [PersistentServerRepository.serverById].
  assert (JsMap.get (Server.id b)
            (JsMap.set (Server.id a) a
               (JsMap.set (Server.id b) b
                  (JsMap.delete (Server.id a)
                     (PersistentServerRepository.serverById r)))) = Some b) as HgetB.
  { rewrite JsMap_get_set_ne by done. apply JsMap_get_set_eq. }
  split; [reflexivity|]. split; [apply JsMap_get_set_eq|]. split; [exact HgetB|].
  split.
  - apply (JsMap_get_values (Server.id a)), JsMap_get_set_eq.
  - by apply (JsMap_get_values (Server.id b)).
Qed.

(** [forget("s1")], [add] of the configuration of [s1], [undoForget("s1")]
    on the repository of two servers: two servers with that configuration
    are tracked. *)
Lemma undoForget_beside_new_server_witness :
  let added :=
    Example.server_of "3b241101-e2bb-4255-8caf-4136c566a962" Example.static_config in
  let r3 :=
    (PersistentServerRepository.undoForget (runtime := ReferenceJSON.runtime) "s1"
       (PersistentServerRepository.add (runtime := ReferenceJSON.runtime)
          (factory := Example.factory) "3b241101-e2bb-4255-8caf-4136c566a962"
          Example.static_config
          (PersistentServerRepository.forget (runtime := ReferenceJSON.runtime) "s1"
             Example.two_servers).2).2).2 in
  Example.server_of "s1" Example.static_config ∈ PersistentServerRepository.getAll r3 ∧
  added ∈ PersistentServerRepository.getAll r3 ∧
  configsMatch (OutlineServer.config added) Example.static_config = true.
Proof.
  destruct (undoForget_beside_new_server (runtime := ReferenceJSON.runtime)
              (factory := Example.factory) "s1" "3b241101-e2bb-4255-8caf-4136c566a962"
              Example.static_config (Example.server_of "s1" Example.static_config)
              (Example.server_of "3b241101-e2bb-4255-8caf-4136c566a962"
                 Example.static_config)
              Example.two_servers)
    as (_ & _ & _ & Hold & Hnew).
  - reflexivity.
  - reflexivity.
  - intros tracked Hin. cbn in Hin. apply list_elem_of_singleton in Hin. by subst.
  - reflexivity.
  - reflexivity.
  - discriminate.
  - split; [exact Hold|]. split; [exact Hnew | reflexivity].
Defined.
